(** * Borealis: view tree, focus traversal, scrolling and attribute parsing

    A shallow embedding of the view tree and focus navigation core of the
    Borealis UI library:

    - [Focus]: [Box::getDefaultFocus] and [Box::getNextFocus]
      (library/lib/box.cpp);
    - [Scrolling]: [ScrollingBox::getContentHeight] and
      [ScrollingBox::updateScrolling] (library/lib/scrolling_box.cpp);
    - [Frame]: the template method [View::frame] (library/lib/view.cpp);
    - [Legacy]: [BoxLayout] focus memory and the gravity pass of
      [BoxLayout::layout] (library/lib/box_layout.cpp);
    - [Xml]: [View::applyXMLAttribute] (library/lib/view.cpp).

    Conventions.  A [size_t] is a [Z] in [0, 2^64) and every operation on it
    is wrapped with [size_t_wrap]; [unsigned] and [int] are handled the same
    way on 32 bits.  A C++ [float] is an exact rational ([Q]); rounding,
    infinities and NaN are outside the model, except where the code tests
    for NaN itself ([ntz]), where the value is an [option Q]. *)

From Stdlib Require Import ZArith QArith Qabs Lia Lqa Ascii String.
From stdpp Require Import base option list gmap strings.

Set Warnings "-register-all".

Local Open Scope Z_scope.

(** ** Machine integers *)

Definition SIZE_MAX : Z := 2 ^ 64 - 1.

Definition size_t_wrap (z : Z) : Z := z mod 2 ^ 64.

(** ** Focus traversal of [Box] *)

Module Focus.

Inductive Axis := ROW | COLUMN.

Inductive FocusDirection := UP | DOWN | LEFT | RIGHT.

#[global] Instance Axis_eq_dec : EqDecision Axis.
Proof. solve_decision. Defined.

#[global] Instance FocusDirection_eq_dec : EqDecision FocusDirection.
Proof. solve_decision. Defined.

(** The identity of a view object (what a [View*] points to). *)
Definition ViewRef := nat.

(** The fields of [Box] that focus traversal reads. *)
Record BoxData (V : Type) := mkBox {
  axis : Axis;
  children : list V;
  defaultFocusedIndex : Z;
}.
Arguments mkBox {V} _ _ _.
Arguments axis {V} _.
Arguments children {V} _.
Arguments defaultFocusedIndex {V} _.

(** A view is either a [Box] or some other view class.  [View]'s own
    [getDefaultFocus] returns [nullptr]; a focusable class overrides it,
    so a non-box view carries the answer of its override. *)
Inductive View : Type :=
| Widget (self : ViewRef) (defaultFocus : option ViewRef)
| BoxView (self : ViewRef) (box : BoxData View).

Abbreviation Box := (BoxData View).

Section BoxDefaultFocus.
Context {V : Type} (childDefaultFocus : V -> option ViewRef).

(** [children[i]->getDefaultFocus()] *)
Definition focusAt : list V -> nat -> option ViewRef :=
  fix go (l : list V) (i : nat) : option ViewRef :=
    match l with
    | [] => None
    | c :: l' =>
        match i with
        | O => childDefaultFocus c
        | S i' => go l' i'
        end
    end.

(** The fallback loop: the first child, in order, that accepts. *)
Definition firstFocus : list V -> option ViewRef :=
  fix go (l : list V) : option ViewRef :=
    match l with
    | [] => None
    | c :: l' =>
        match childDefaultFocus c with
        | Some newFocus => Some newFocus
        | None => go l'
        end
    end.

Definition Box_getDefaultFocus_with (b : BoxData V) : option ViewRef :=
  let remembered :=
    if defaultFocusedIndex b <? Z.of_nat (length (children b))
    then focusAt (children b) (Z.to_nat (defaultFocusedIndex b))
    else None in
  match remembered with
  | Some newFocus => Some newFocus
  | None => firstFocus (children b)
  end.
End BoxDefaultFocus.

(** [View::getDefaultFocus], dispatched on the class of the view. *)
Fixpoint View_getDefaultFocus (v : View) : option ViewRef :=
  match v with
  | Widget _ defaultFocus => defaultFocus
  | BoxView _ b => Box_getDefaultFocus_with View_getDefaultFocus b
  end.

Definition Box_getDefaultFocus (b : Box) : option ViewRef :=
  Box_getDefaultFocus_with View_getDefaultFocus b.

(** [Box::Box(Axis)]: no children, [defaultFocusedIndex = 0]. *)
Definition Box_ctor (a : Axis) : Box := mkBox a [] 0.

(** [Box::addView]: the view goes to the end of [children]; the position
    handed to the child as parent user data is the number of children
    before the call. *)
Definition Box_addView (b : Box) (view : View) : Box :=
  mkBox (axis b) (children b ++ [view]) (defaultFocusedIndex b).

Definition Box_addView_userdata (b : Box) : Z :=
  size_t_wrap (Z.of_nat (length (children b))).

Definition Box_addViews (b : Box) (views : list View) : Box :=
  foldl Box_addView b views.

(** What a run of the scanning loop of [getNextFocus] can end in.
    [OutOfBounds] is a read of [children[i]] with [i] not below the size
    of the vector; [OutOfFuel] is a loop that is still running when the
    bound on iterations is used up. *)
Inductive outcome :=
| Returned (r : option ViewRef)
| OutOfBounds
| OutOfFuel.

(** The [while] loop of [Box::getNextFocus]; [idx] is
    [currentFocusIndex]. *)
Fixpoint scanChildren (fuel : nat) (cs : list View) (offset idx : Z)
  : outcome :=
  match fuel with
  | O => OutOfFuel
  | S fuel' =>
      if (0 <=? idx) && (idx <? Z.of_nat (length cs)) then
        match cs !! Z.to_nat idx with
        | None => OutOfBounds
        | Some c =>
            match View_getDefaultFocus c with
            | Some currentFocus => Returned (Some currentFocus)
            | None => scanChildren fuel' cs offset (size_t_wrap (idx + offset))
            end
        end
      else Returned None
  end.

Definition axis_mismatch (a : Axis) (d : FocusDirection) : bool :=
  (bool_decide (a = ROW) && bool_decide (d <> LEFT) && bool_decide (d <> RIGHT))
  || (bool_decide (a = COLUMN) && bool_decide (d <> UP) && bool_decide (d <> DOWN)).

Definition scan_offset (a : Axis) (d : FocusDirection) : Z :=
  if (bool_decide (a = ROW) && bool_decide (d = LEFT))
     || (bool_decide (a = COLUMN) && bool_decide (d = UP))
  then size_t_wrap (-1)
  else 1.

(** [Box::getNextFocus].  [parentUserData] is the [size_t] that the
    parent user data of [currentView] points to. *)
Definition Box_getNextFocus_fuel (fuel : nat) (b : Box)
    (direction : FocusDirection) (parentUserData : Z) : outcome :=
  if axis_mismatch (axis b) direction then Returned None
  else
    let offset := scan_offset (axis b) direction in
    scanChildren fuel (children b) offset
      (size_t_wrap (parentUserData + offset)).

(** The loop reads each child at most once, so one iteration per child
    is a sufficient bound. *)
Definition Box_getNextFocus (b : Box) (direction : FocusDirection)
    (parentUserData : Z) : outcome :=
  Box_getNextFocus_fuel (length (children b)) b direction parentUserData.

End Focus.

(** ** Floats as exact rationals *)

Definition Qltb (a b : Q) : bool :=
  (Qnum a * QDen b <? Qnum b * QDen a)%Z.

Definition Qgtb (a b : Q) : bool := Qltb b a.

Definition Qleb (a b : Q) : bool := Qle_bool a b.

Definition Qneqb (a b : Q) : bool := negb (Qeq_bool a b).

(** Conversion of a float to [int]: truncation towards zero. *)
Definition float_to_int (q : Q) : Z := Z.quot (Qnum q) (QDen q).

(** A float read from the layout engine: [None] is NaN, the engine's
    "undefined". *)
Definition YGFloat := option Q.

(** [ntz]: NaN to zero. *)
Definition ntz (value : YGFloat) : Q :=
  match value with
  | None => 0%Q
  | Some v => v
  end.

Definition sumQ (l : list Q) : Q := foldr Qplus 0%Q l.

(** A colour, as [nvgRGBA] builds it from four bytes: each channel is the
    byte divided by 255. *)
Record NVGcolor := mkNVGcolor {
  color_r : Q;
  color_g : Q;
  color_b : Q;
  color_a : Q;
}.

Definition nvgRGBA (r g b a : Z) : NVGcolor :=
  mkNVGcolor (Qred (r # 255)) (Qred (g # 255)) (Qred (b # 255))
    (Qred (a # 255)).

Definition nvgRGB (r g b : Z) : NVGcolor := nvgRGBA r g b 255.

(** ** ScrollingBox *)

Module Scrolling.

(** What the layout engine computed for one child of the flat box:
    [YGNodeLayoutGetTop], [YGNodeLayoutGetHeight] and
    [YGNodeLayoutGetMargin] for the top and bottom edges.  The top and the
    height are numbers (the layout has run); a margin can be undefined. *)
Record ChildLayout := mkChildLayout {
  layoutTop : Q;
  layoutHeight : Q;
  layoutMarginTop : YGFloat;
  layoutMarginBottom : YGFloat;
}.

(** The fields of [ScrollingBox] and of its layout node that scrolling
    reads and writes. *)
Record ScrollingBox := mkScrollingBox {
  flatBoxChildren : list ChildLayout;
  getY : Q;
  getHeight : Q;
  layoutPaddingTop : YGFloat;
  layoutPaddingBottom : YGFloat;
  updateScrollingOnNextFrame : bool;
  middleY : Q;
  bottomY : Q;
  scrollY : Q;
}.

Definition set_scrollY (v : Q) (b : ScrollingBox) : ScrollingBox :=
  mkScrollingBox (flatBoxChildren b) (getY b) (getHeight b)
    (layoutPaddingTop b) (layoutPaddingBottom b)
    (updateScrollingOnNextFrame b) (middleY b) (bottomY b) v.

Definition set_prebaked (mid bot : Q) (b : ScrollingBox) : ScrollingBox :=
  mkScrollingBox (flatBoxChildren b) (getY b) (getHeight b)
    (layoutPaddingTop b) (layoutPaddingBottom b)
    (updateScrollingOnNextFrame b) mid bot (scrollY b).

Definition getScrollingAreaTopBoundary (b : ScrollingBox) : Q :=
  (getY b + ntz (layoutPaddingTop b))%Q.

Definition getScrollingAreaHeight (b : ScrollingBox) : Q :=
  (getHeight b - ntz (layoutPaddingTop b) - ntz (layoutPaddingBottom b))%Q.

Definition prebakeScrolling (b : ScrollingBox) : ScrollingBox :=
  let y := getScrollingAreaTopBoundary b in
  let height := getScrollingAreaHeight b in
  set_prebaked (y + height / 2)%Q (y + height)%Q b.

Definition contentHeightOf (children : list ChildLayout) : Q :=
  match children !! 0%nat, children !! (length children - 1)%nat with
  | Some firstChild, Some lastChild =>
      (layoutTop lastChild
       + (layoutHeight lastChild + ntz (layoutMarginBottom lastChild))
       - layoutTop firstChild)%Q
  | _, _ => 0%Q
  end.

Definition getContentHeight (b : ScrollingBox) : Q :=
  contentHeightOf (flatBoxChildren b).

(** A scroll animation pushed to the animation scheduler. *)
Record ScrollAnimation := mkScrollAnimation { target_value : Q }.

(** [startScrolling]: nothing happens when the scroll does not change;
    otherwise the new value is either written at once or handed to the
    animation scheduler.  (The animation that is killed first and the
    invalidation of the layout are not part of the state kept here.) *)
Definition startScrolling (animated : bool) (newScroll : Q)
    (b : ScrollingBox) : ScrollingBox * option ScrollAnimation :=
  if Qeq_bool newScroll (scrollY b) then (b, None)
  else if animated then (b, Some (mkScrollAnimation newScroll))
  else (set_scrollY newScroll b, None).

(** The vertical geometry of the view that holds the focus
    ([Application::getCurrentFocus()]). *)
Record FocusedView := mkFocusedView {
  focusedY : Q;
  focusedHeight : Q;
}.

(** The scroll requested by the focus change, before any clamping: the
    offset of the flat box that puts the middle of the focused view on
    [middleY]. *)
Definition requestedScroll (b : ScrollingBox) (focusedView : FocusedView)
  : Q :=
  let contentHeight := getContentHeight b in
  let currentSelectionMiddleOnScreen : Z :=
    float_to_int (focusedY focusedView + focusedHeight focusedView / 2)%Q in
  (- (scrollY b * contentHeight)
   - (inject_Z currentSelectionMiddleOnScreen - middleY b))%Q.

(** The value that [updateScrolling] hands to [startScrolling].  [abs]
    is the floating-point overload.  The last division is the division
    of the rationals; where the content height is 0 the code divides a
    [float] by zero, so what is proved about this value is proved for a
    content height that is not 0. *)
Definition newScrollOf (b : ScrollingBox) (focusedView : FocusedView) : Q :=
  let contentHeight := getContentHeight b in
  let newScroll := requestedScroll b focusedView in
  (* Bottom boundary *)
  let newScroll :=
    if Qltb (getScrollingAreaTopBoundary b + newScroll + contentHeight)%Q
            (bottomY b)
    then (getScrollingAreaHeight b - contentHeight)%Q
    else newScroll in
  (* Top boundary *)
  let newScroll := if Qgtb newScroll 0%Q then 0%Q else newScroll in
  (* Apply 0.0f -> 1.0f scale *)
  (Qabs newScroll / contentHeight)%Q.

Definition updateScrolling (animated : bool) (focusedView : FocusedView)
    (b : ScrollingBox) : bool * (ScrollingBox * option ScrollAnimation) :=
  match flatBoxChildren b with
  | [] => (false, (b, None))
  | _ :: _ =>
      (true, startScrolling animated (newScrollOf b focusedView) b)
  end.

(** The children of the flat box lie one under the other, as the layout
    engine places the children of a column: each child's top is the
    previous child's top plus that child's height and bottom margin plus
    its own top margin. *)
Fixpoint column_stacked (children : list ChildLayout) : Prop :=
  match children with
  | c1 :: ((c2 :: _) as rest) =>
      (layoutTop c2 ==
       layoutTop c1 + layoutHeight c1 + ntz (layoutMarginBottom c1)
       + ntz (layoutMarginTop c2))%Q
      /\ column_stacked rest
  | _ => True
  end.

End Scrolling.

(** ** The template method [View::frame] *)

Module Frame.

Inductive Visibility := VISIBLE | INVISIBLE | GONE.

#[global] Instance Visibility_eq_dec : EqDecision Visibility.
Proof. solve_decision. Defined.

(** The identity of a theme value. *)
Definition Theme := nat.

(** The calls that [frame] makes on the drawing context and on the view
    itself, in the order in which it makes them.  [drawBackground],
    [drawHighlight] and [draw] stand for the whole body of the method of
    that name; the theme they carry is [ctx->theme] at the time of the
    call. *)
Inductive DrawCall :=
| nvgSave
| nvgRestore
| nvgIntersectScissor (x y w h : Q)
| drawBackground (theme : Theme)
| drawHighlight (theme : Theme) (alpha : Q) (background : bool)
| draw (x y width height : Q) (theme : Theme)
| nvgBeginPath
| nvgFillColor (color : NVGcolor)
| nvgRect (x y w h : Q)
| nvgFill.

Record FrameContext := mkFrameContext {
  theme : Theme;
  vg : list DrawCall;
}.

(** The fields of [View] that [frame] and [drawBorder] read.  [getX] to
    [getHeight] are the values of the geometry getters;
    [isHighlightBackgroundEnabled] is the answer of the virtual method of
    that name; [parentAlpha] is the alpha of the parent chain (1 without a
    parent). *)
Record View := mkView {
  visibility : Visibility;
  themeOverride : option Theme;
  alpha : Q;
  parentAlpha : Q;
  collapseState : Q;
  highlightAlpha : Q;
  isHighlightBackgroundEnabled : bool;
  getX : Q;
  getY : Q;
  getWidth : Q;
  getHeight : Q;
  borderColor : NVGcolor;
  borderTop : Q;
  borderRight : Q;
  borderBottom : Q;
  borderLeft : Q;
}.

(** A statement of [frame]: it changes the frame context. *)
Definition Stmt := FrameContext -> FrameContext.

Definition skip : Stmt := fun ctx => ctx.

Definition seq (s1 s2 : Stmt) : Stmt := fun ctx => s2 (s1 ctx).

Declare Scope stmt_scope.
Delimit Scope stmt_scope with stmt.
Bind Scope stmt_scope with Stmt.
Notation "s1 ;; s2" := (seq s1 s2)
  (at level 100, s2 at level 200, right associativity) : stmt_scope.
Local Open Scope stmt_scope.

Definition when (c : bool) (s : Stmt) : Stmt := if c then s else skip.

Definition call (c : DrawCall) : Stmt :=
  fun ctx => mkFrameContext (theme ctx) (vg ctx ++ [c]).

Definition call_with_theme (c : Theme -> DrawCall) : Stmt :=
  fun ctx => call (c (theme ctx)) ctx.

Definition set_theme (t : Theme) : Stmt :=
  fun ctx => mkFrameContext t (vg ctx).

Definition getAlpha (v : View) : Q := (alpha v * parentAlpha v)%Q.

(** [View::a(NVGcolor)] *)
Definition a (v : View) (color : NVGcolor) : NVGcolor :=
  mkNVGcolor (color_r color) (color_g color) (color_b color)
    (color_a color * getAlpha v)%Q.

Definition drawBorder (v : View) (x y width height : Q) : Stmt :=
  if Qleb (borderTop v) 0 && Qleb (borderRight v) 0
     && Qleb (borderBottom v) 0 && Qleb (borderLeft v) 0
  then skip
  else
    call nvgBeginPath ;;
    call (nvgFillColor (a v (borderColor v))) ;;
    when (Qgtb (borderTop v) 0)
      (call (nvgRect x y width (borderTop v))) ;;
    when (Qgtb (borderRight v) 0)
      (call (nvgRect (x + width) y (borderRight v) height)) ;;
    when (Qgtb (borderBottom v) 0)
      (call (nvgRect x (y + height - borderBottom v) width (borderBottom v))) ;;
    when (Qgtb (borderLeft v) 0)
      (call (nvgRect (x - borderLeft v) y (borderLeft v) height)) ;;
    call nvgFill.

(** [View::frame], without the wireframe that only a build with
    [BRLS_WIREFRAME] draws. *)
Definition frame (v : View) : Stmt :=
  fun ctx =>
    if bool_decide (visibility v <> VISIBLE) then ctx
    else
      let oldTheme := theme ctx in
      let x := getX v in
      let y := getY v in
      let width := getWidth v in
      let height := getHeight v in
      (call nvgSave ;;
       (* Theme override *)
       match themeOverride v with
       | Some t => set_theme t
       | None => skip
       end ;;
       when (Qgtb (alpha v) 0 && Qneqb (collapseState v) 0)
         ((* Draw background *)
          call_with_theme drawBackground ;;
          (* Draw highlight background *)
          when (Qgtb (highlightAlpha v) 0 && isHighlightBackgroundEnabled v)
            (call_with_theme
               (fun t => drawHighlight t (highlightAlpha v) true)) ;;
          (* Collapse clipping *)
          when (Qltb (collapseState v) 1)
            (call nvgSave ;;
             call (nvgIntersectScissor x y width
                     (height * collapseState v))) ;;
          (* Draw the view *)
          call_with_theme (draw x y width height) ;;
          (* Draw highlight *)
          when (Qgtb (highlightAlpha v) 0)
            (call_with_theme
               (fun t => drawHighlight t (highlightAlpha v) false)) ;;
          drawBorder v x y width height ;;
          (* Reset clipping *)
          when (Qltb (collapseState v) 1) (call nvgRestore)) ;;
       (* Cleanup *)
       match themeOverride v with
       | Some _ => set_theme oldTheme
       | None => skip
       end ;;
       call nvgRestore) ctx.

(** The calls of [drawBorder] as a list. *)
Definition borderCalls (v : View) : list DrawCall :=
  vg (drawBorder v (getX v) (getY v) (getWidth v) (getHeight v)
        (mkFrameContext 0%nat [])).

End Frame.

(** ** The legacy [BoxLayout] *)

Definition uint32_wrap (z : Z) : Z := z mod 2 ^ 32.

Definition int32_wrap (z : Z) : Z := (z + 2 ^ 31) mod 2 ^ 32 - 2 ^ 31.

Module Legacy.

Inductive BoxLayoutOrientation := VERTICAL | HORIZONTAL.

(** [BoxLayout::layout] tells RIGHT from every other gravity. *)
Inductive BoxLayoutGravity := RIGHT | OTHER_GRAVITY.

Inductive Notification :=
| WillAppear (resetState : bool)
| WillDisappear (resetState : bool)
| Invalidate.

(** Modelled from the spec: the view class that [BoxLayout] lays out by
    hand is declared in a header that is not among the sources.  Its
    geometry is a stored rectangle, [x] and [y] being [int] and [width]
    and [height] being [unsigned]; the getters return what
    [setBoundaries] stored, the height multiplied by the collapse state
    unless the caller asks otherwise, as in [View::getHeight].
    [notified] records the lifecycle and invalidation calls the view
    received, oldest first. *)
Record View := mkView {
  x : Z;
  y : Z;
  width : Z;
  height : Z;
  collapseState : Q;
  notified : list Notification;
}.

Definition getX (v : View) : Z := x v.
Definition getY (v : View) : Z := y v.
Definition getWidth (v : View) : Z := width v.
Definition getHeight (includeCollapse : bool) (v : View) : Z :=
  if includeCollapse
  then uint32_wrap (float_to_int (inject_Z (height v) * collapseState v)%Q)
  else height v.

Definition setBoundaries (x' y' width' height' : Z) (v : View) : View :=
  mkView x' y' width' height' (collapseState v) (notified v).

Definition notify (n : Notification) (v : View) : View :=
  mkView (x v) (y v) (width v) (height v) (collapseState v)
    (notified v ++ [n]).

Record BoxLayoutChild := mkChild {
  view : View;
  fill : bool;
}.

Definition on_view (f : View -> View) (child : BoxLayoutChild)
  : BoxLayoutChild :=
  mkChild (f (view child)) (fill child).

(** The fields of [BoxLayout] that focus memory and the gravity pass use;
    [self] is the geometry of the layout as a view. *)
Record BoxLayout := mkBoxLayout {
  self : View;
  orientation : BoxLayoutOrientation;
  gravity : BoxLayoutGravity;
  children : list BoxLayoutChild;
  rememberFocus : bool;
  originalDefaultFocus : Z;
  defaultFocusedIndex : Z;
  childFocused : bool;
}.

Definition set_children (cs : list BoxLayoutChild) (b : BoxLayout)
  : BoxLayout :=
  mkBoxLayout (self b) (orientation b) (gravity b) cs (rememberFocus b)
    (originalDefaultFocus b) (defaultFocusedIndex b) (childFocused b).

Definition set_defaultFocusedIndex (i : Z) (b : BoxLayout) : BoxLayout :=
  mkBoxLayout (self b) (orientation b) (gravity b) (children b)
    (rememberFocus b) (originalDefaultFocus b) i (childFocused b).

Definition set_childFocused (f : bool) (b : BoxLayout) : BoxLayout :=
  mkBoxLayout (self b) (orientation b) (gravity b) (children b)
    (rememberFocus b) (originalDefaultFocus b) (defaultFocusedIndex b) f.

Definition setRememberFocus (remember : bool) (b : BoxLayout) : BoxLayout :=
  mkBoxLayout (self b) (orientation b) (gravity b) (children b)
    remember (originalDefaultFocus b) (defaultFocusedIndex b)
    (childFocused b).

(** [BoxLayout::addView] without the layout it triggers: the child
    record goes to the end of the list and the view is told to appear. *)
Definition addView (v : View) (fill : bool) (resetState : bool)
    (b : BoxLayout) : BoxLayout :=
  set_children
    (children b ++ [mkChild (notify (WillAppear resetState) v) fill]) b.

(** [BoxLayout::onChildFocusGained].  [position] is the place in the list
    that the iterator in the parent user data of the child points to, so
    that [std::distance] from the beginning is [position].  The final call
    of [View::onChildFocusGained] hands the event to the parent of the
    layout and does not touch the layout. *)
Definition onChildFocusGained (position : nat) (b : BoxLayout) : BoxLayout :=
  let b := set_childFocused true b in
  if rememberFocus b
  then set_defaultFocusedIndex (size_t_wrap (Z.of_nat position)) b
  else b.

Definition willAppear (resetState : bool) (b : BoxLayout) : BoxLayout :=
  set_children (map (on_view (notify (WillAppear resetState))) (children b)) b.

Definition willDisappear (resetState : bool) (b : BoxLayout) : BoxLayout :=
  let b :=
    set_children
      (map (on_view (notify (WillDisappear resetState))) (children b)) b in
  (* Reset default focus to original one if needed *)
  if rememberFocus b
  then set_defaultFocusedIndex (originalDefaultFocus b) b
  else b.

(** The two edges that the gravity pass compares, as the [unsigned]
    values the code computes. *)
Definition rightEdge (v : View) : Z := uint32_wrap (getX v + getWidth v).

(** What the gravity pass does to one child.  [getX() + difference] is
    an [unsigned] sum, which the [int] parameter of [setBoundaries]
    receives converted. *)
Definition shiftRight (difference : Z) (v : View) : View :=
  notify Invalidate
    (setBoundaries (int32_wrap (uint32_wrap (getX v + difference))) (getY v)
       (getWidth v) (getHeight true v) v).

(** The gravity pass that ends the HORIZONTAL branch of
    [BoxLayout::layout]. *)
Definition applyGravity (b : BoxLayout) : BoxLayout :=
  match last (children b) with
  | None => b
  | Some prev_it =>
      match gravity b with
      | RIGHT =>
          let lastView := view prev_it in
          let lastViewRight := rightEdge lastView in
          let ourRight := rightEdge (self b) in
          if lastViewRight <=? ourRight then
            let difference := uint32_wrap (ourRight - lastViewRight) in
            set_children (map (on_view (shiftRight difference)) (children b)) b
          else b
      | OTHER_GRAVITY => b
      end
  end.

(** The end of [BoxLayout::layout]: gravity is applied in the HORIZONTAL
    branch only. *)
Definition layoutGravity (b : BoxLayout) : BoxLayout :=
  match orientation b with
  | VERTICAL => b
  | HORIZONTAL => applyGravity b
  end.

End Legacy.

(** ** XML attributes *)

Module Xml.

Local Open Scope string_scope.
Local Open Scope Z_scope.

(** *** The library functions that [applyXMLAttribute] calls *)

Definition code (c : ascii) : Z := Z.of_N (N_of_ascii c).

(** [isspace] in the C locale. *)
Definition isspace (c : ascii) : bool :=
  (code c =? 32) || ((9 <=? code c) && (code c <=? 13)).

Definition digit_value (c : ascii) : option Z :=
  if (48 <=? code c) && (code c <=? 57) then Some (code c - 48) else None.

Definition hex_value (c : ascii) : option Z :=
  if (48 <=? code c) && (code c <=? 57) then Some (code c - 48)
  else if (65 <=? code c) && (code c <=? 70) then Some (code c - 55)
  else if (97 <=? code c) && (code c <=? 102) then Some (code c - 87)
  else None.

Fixpoint skip_spaces (l : list ascii) : list ascii :=
  match l with
  | c :: l' => if isspace c then skip_spaces l' else l
  | [] => []
  end.

(** The longest run of decimal digits at the head of [l], as the number
    they spell (with the given digits to their left), how many there
    are, and the rest of [l]. *)
Fixpoint take_digits (acc : Z) (count : nat) (l : list ascii)
  : Z * nat * list ascii :=
  match l with
  | c :: l' =>
      match digit_value c with
      | Some d => take_digits (10 * acc + d) (S count) l'
      | None => (acc, count, l)
      end
  | [] => (acc, count, [])
  end.

Definition take_sign (l : list ascii) : bool * list ascii :=
  match l with
  | c :: l' =>
      if code c =? 45 then (true, l')
      else if code c =? 43 then (false, l')
      else (false, l)
  | [] => (false, [])
  end.

(** An exponent part: [e] or [E] followed by an optional sign and at
    least one digit; 0 when there is none. *)
Definition take_exponent (l : list ascii) : Z :=
  match l with
  | c :: l' =>
      if (code c =? 101) || (code c =? 69) then
        let '(negative, l'') := take_sign l' in
        let '(e, count, _) := take_digits 0 0 l'' in
        match count with
        | O => 0
        | S _ => if negative then - e else e
        end
      else 0
  | [] => 0
  end.

Definition pow10 (n : Z) : Q := inject_Z (10 ^ n).

(** [std::stof] on decimal input: optional white space, an optional
    sign, digits with an optional point, an optional exponent; what
    follows is ignored.  [None] is the [std::invalid_argument] that
    [std::stof] throws when no conversion can be made.  The result is the
    exact value of the literal; hexadecimal literals, infinities, NaN and
    [std::out_of_range] are outside the model. *)
Definition stof (s : string) : option Q :=
  let l := skip_spaces (list_ascii_of_string s) in
  let '(negative, l) := take_sign l in
  let '(int_part, int_count, l) := take_digits 0 0 l in
  let '(mantissa, frac_count, l) :=
    match l with
    | c :: l' =>
        if code c =? 46 then take_digits int_part 0 l'
        else (int_part, O, l)
    | [] => (int_part, O, [])
    end in
  match (int_count + frac_count)%nat with
  | O => None
  | S _ =>
      let e := take_exponent l - Z.of_nat frac_count in
      let magnitude :=
        if 0 <=? e then (inject_Z mantissa * pow10 e)%Q
        else (inject_Z mantissa / pow10 (- e))%Q in
      Some (Qred (if negative then - magnitude else magnitude)%Q)
  end.

(** [std::string::find(needle, pos)]; [None] is [npos]. *)
Definition string_find (data needle : string) (pos : Z) : option nat :=
  if Z.of_nat (String.length data) <? pos then None
  else String.index (Z.to_nat pos) needle data.

(** [endsWith]: the start position is a [size_t] difference. *)
Definition endsWith (data suffix : string) : bool :=
  match
    string_find data suffix
      (size_t_wrap (Z.of_nat (String.length data)
                    - Z.of_nat (String.length suffix)))
  with
  | Some _ => true
  | None => false
  end.

(** [startsWith]: [rfind(prefix, 0)] can only match at position 0. *)
Definition startsWith (data prefix : string) : bool :=
  String.prefix prefix data.

(** [std::string::substr(pos)] for [pos] within the string. *)
Definition substr_from (pos : nat) (s : string) : string :=
  String.substring pos (String.length s - pos) s.

(** One [%02hhx] conversion of [sscanf]: white space is skipped, then one
    or two hexadecimal digits are read.  (A sign or a [0x] prefix, which
    [%x] also accepts, is outside the model.) *)
Definition scan_hex_byte (l : list ascii) : option (Z * list ascii) :=
  match skip_spaces l with
  | c1 :: l1 =>
      match hex_value c1 with
      | None => None
      | Some d1 =>
          match l1 with
          | c2 :: l2 =>
              match hex_value c2 with
              | Some d2 => Some (16 * d1 + d2, l2)
              | None => Some (d1, l1)
              end
          | [] => Some (d1, [])
          end
      end
  | [] => None
  end.

Fixpoint scan_hex_bytes (fields : nat) (l : list ascii) : list Z :=
  match fields with
  | O => []
  | S fields' =>
      match scan_hex_byte l with
      | Some (byte, l') => byte :: scan_hex_bytes fields' l'
      | None => []
      end
  end.

(** [sscanf(value, "#%02hhx...", ...)] with [fields] conversions: the
    bytes that were converted; their number is the result of [sscanf]. *)
Definition sscanf_color (fields : nat) (value : string) : list Z :=
  match list_ascii_of_string value with
  | c :: l => if code c =? 35 then scan_hex_bytes fields l else []
  | [] => []
  end.

(** *** Handlers and the registry of a view *)

Inductive Exception := invalid_argument | logic_error.

Inductive Completion (A : Type) :=
| Normal (result : A)
| Throw (e : Exception).
Arguments Normal {A} _.
Arguments Throw {A} _.

Section Attributes.

(** [State] is everything the handlers of a view can change. *)
Context {State : Type}.

(** [style] and [theme] are the style metrics and the theme colours of the
    application; a missing key makes the lookup throw [std::logic_error]. *)
Context (style : string -> option Q) (theme : string -> option NVGcolor).

Definition Effect (A : Type) : Type := State -> Completion A * State.

Abbreviation AutoAttributeHandler := (Effect unit).
Abbreviation FloatAttributeHandler := (Q -> Effect unit).
Abbreviation StringAttributeHandler := (string -> Effect unit).
Abbreviation ColorAttributeHandler := (NVGcolor -> Effect unit).

Record View := mkView {
  autoAttributes : gmap string AutoAttributeHandler;
  percentageAttributes : gmap string FloatAttributeHandler;
  floatAttributes : gmap string FloatAttributeHandler;
  stringAttributes : gmap string StringAttributeHandler;
  colorAttributes : gmap string ColorAttributeHandler;
  knownAttributes : gset string;
}.

Definition noAttributes : View := mkView ∅ ∅ ∅ ∅ ∅ ∅.

Definition registerFloatXMLAttribute (name : string)
    (handler : FloatAttributeHandler) (v : View) : View :=
  mkView (autoAttributes v) (percentageAttributes v)
    (<[name := handler]> (floatAttributes v)) (stringAttributes v)
    (colorAttributes v) ({[name]} ∪ knownAttributes v).

Definition registerPercentageXMLAttribute (name : string)
    (handler : FloatAttributeHandler) (v : View) : View :=
  mkView (autoAttributes v) (<[name := handler]> (percentageAttributes v))
    (floatAttributes v) (stringAttributes v)
    (colorAttributes v) ({[name]} ∪ knownAttributes v).

Definition registerAutoXMLAttribute (name : string)
    (handler : AutoAttributeHandler) (v : View) : View :=
  mkView (<[name := handler]> (autoAttributes v)) (percentageAttributes v)
    (floatAttributes v) (stringAttributes v)
    (colorAttributes v) ({[name]} ∪ knownAttributes v).

Definition registerStringXMLAttribute (name : string)
    (handler : StringAttributeHandler) (v : View) : View :=
  mkView (autoAttributes v) (percentageAttributes v)
    (floatAttributes v) (<[name := handler]> (stringAttributes v))
    (colorAttributes v) ({[name]} ∪ knownAttributes v).

Definition registerColorXMLAttribute (name : string)
    (handler : ColorAttributeHandler) (v : View) : View :=
  mkView (autoAttributes v) (percentageAttributes v)
    (floatAttributes v) (stringAttributes v)
    (<[name := handler]> (colorAttributes v)) ({[name]} ∪ knownAttributes v).

Definition ret {A : Type} (a : A) : Effect A := fun s => (Normal a, s).

Definition throw {A : Type} (e : Exception) : Effect A :=
  fun s => (Throw e, s).

(** [handler(...); return true;] *)
Definition call_return_true (handler : Effect unit) : Effect bool :=
  fun s =>
    match handler s with
    | (Normal _, s') => (Normal true, s')
    | (Throw e, s') => (Throw e, s')
    end.

(** [try { body } catch (const std::invalid_argument&) { return false; }] *)
Definition try_catch_invalid_argument (body : Effect bool) : Effect bool :=
  fun s =>
    match body s with
    | (Throw invalid_argument, s') => (Normal false, s')
    | r => r
    end.

(** [if (map.count(name) > 0) { map[name](arg); return true; }
     else return false;] *)
Definition dispatch {H : Type} (handlers : gmap string H) (name : string)
    (invoke : H -> Effect unit) : Effect bool :=
  match handlers !! name with
  | Some handler => call_return_true (invoke handler)
  | None => ret false
  end.

Definition applyXMLAttribute (v : View) (name value : string) : Effect bool :=
  (* String -> string *)
  match stringAttributes v !! name with
  | Some handler => call_return_true (handler value)
  | None =>
  (* Auto -> auto *)
  if String.eqb value "auto" then
    dispatch (autoAttributes v) name (fun handler => handler)
  (* Ends with px -> float *)
  else if endsWith value "px" then
    let newFloat := String.substring 0 (String.length value - 2) value in
    try_catch_invalid_argument
      match stof newFloat with
      | None => throw invalid_argument
      | Some floatValue =>
          dispatch (floatAttributes v) name (fun handler => handler floatValue)
      end
  (* Ends with % -> percentage *)
  else if endsWith value "%" then
    let newFloat := String.substring 0 (String.length value - 1) value in
    try_catch_invalid_argument
      match stof newFloat with
      | None => throw invalid_argument
      | Some floatValue =>
          if Qltb floatValue 0 || Qgtb floatValue 100 then ret false
          else
            dispatch (percentageAttributes v) name
              (fun handler => handler floatValue)
      end
  (* Starts with @style -> float *)
  else if startsWith value "@style/" then
    let styleName := substr_from 7 value in
    match style styleName with
    | None => throw logic_error
    | Some value =>
        dispatch (floatAttributes v) name (fun handler => handler value)
    end
  (* Starts with with # -> color *)
  else if startsWith value "#" then
    (* #RRGGBB format *)
    if (String.length value =? 7)%nat then
      match sscanf_color 3 value with
      | [r; g; b] =>
          dispatch (colorAttributes v) name
            (fun handler => handler (nvgRGB r g b))
      | _ => ret false
      end
    (* #RRGGBBAA format *)
    else if (String.length value =? 9)%nat then
      match sscanf_color 4 value with
      | [r; g; b; a] =>
          dispatch (colorAttributes v) name
            (fun handler => handler (nvgRGBA r g b a))
      | _ => ret false
      end
    else ret false
  (* Starts with @theme -> color *)
  else if startsWith value "@theme/" then
    let colorName := substr_from 7 value in
    match theme colorName with
    | None => throw logic_error
    | Some value =>
        dispatch (colorAttributes v) name (fun handler => handler value)
    end
  (* Valid float -> float, otherwise unknown attribute *)
  else
    try_catch_invalid_argument
      match stof value with
      | None => throw invalid_argument
      | Some newValue =>
          dispatch (floatAttributes v) name (fun handler => handler newValue)
      end
  end.

End Attributes.

Arguments View : clear implicits.
Arguments Effect : clear implicits.

End Xml.

(** ** Culling in [Box::draw] *)

Module Culling.

(** The values of the geometry getters of a view. *)
Record Geometry := mkGeometry {
  getX : Q;
  getY : Q;
  getWidth : Q;
  getHeight : Q;
}.

Record Bounds := mkBounds {
  top : Q;
  right : Q;
  bottom : Q;
  left : Q;
}.

Record Child := mkChild {
  self : Focus.ViewRef;
  isCulled : bool;
  geometry : Geometry;
}.

(** [Box::getCullingBounds] *)
Definition Box_getCullingBounds (g : Geometry) : Bounds :=
  let top := getY g in
  let left := getX g in
  mkBounds top (left + getWidth g)%Q (top + getHeight g)%Q left.

(** The two classes that implement [getCullingBounds]: [Box] itself, and
    the flat box of a scrolling box, which answers with the bounds of its
    parent. *)
Inductive BoxClass :=
| PlainBox
| ScrollingBoxInternalBox (parent : Geometry).

Definition getCullingBounds (cls : BoxClass) (g : Geometry) : Bounds :=
  match cls with
  | PlainBox => Box_getCullingBounds g
  | ScrollingBoxInternalBox parent => Box_getCullingBounds parent
  end.

(** The test of [Box::draw] that makes the loop skip a child. *)
Definition out_of_bounds (b : Bounds) (child : Geometry) : bool :=
  let childTop := getY child in
  let childLeft := getX child in
  let childRight := (childLeft + getWidth child)%Q in
  let childBottom := (childTop + getHeight child)%Q in
  Qltb childBottom (top b) (* too high *)
  || Qltb childRight (left b) (* too far left *)
  || Qgtb childLeft (right b) (* too far right *)
  || Qgtb childTop (bottom b) (* too low *).

(** [Box::draw]: the children whose [frame] is called, in call order. *)
Fixpoint framed (b : Bounds) (children : list Child) : list Child :=
  match children with
  | [] => []
  | child :: rest =>
      if isCulled child && out_of_bounds b (geometry child)
      then framed b rest
      else child :: framed b rest
  end.

Definition Box_draw (cls : BoxClass) (g : Geometry) (children : list Child)
  : list Child :=
  framed (getCullingBounds cls g) children.

(** The point [(px, py)] lies in the rectangle of [g], edges included. *)
Definition inside (g : Geometry) (px py : Q) : Prop :=
  (getX g <= px /\ px <= getX g + getWidth g /\
   getY g <= py /\ py <= getY g + getHeight g)%Q.

Definition touches (g1 g2 : Geometry) : Prop :=
  exists px py : Q, inside g1 px py /\ inside g2 px py.

End Culling.

(** ** The life cycle of a [ScrollingBox] *)

Module ScrollingLifecycle.
Import Scrolling.

Definition set_updateScrollingOnNextFrame (flag : bool) (b : ScrollingBox)
  : ScrollingBox :=
  mkScrollingBox (flatBoxChildren b) (getY b) (getHeight b)
    (layoutPaddingTop b) (layoutPaddingBottom b)
    flag (middleY b) (bottomY b) (scrollY b).

(** [ScrollingBox::willAppear], on the state of the scrolling box itself
    (the children are told by [Box::willAppear]). *)
Definition willAppear (resetState : bool) (b : ScrollingBox) : ScrollingBox :=
  let b := prebakeScrolling b in
  if resetState
  then set_updateScrollingOnNextFrame true (fst (startScrolling false 0 b))
  else b.

(** The first statement of [ScrollingBox::draw]: [&&] calls
    [updateScrolling] only when the update is pending, and the flag is
    cleared only when the call answers true. *)
Definition draw_update (focusedView : FocusedView) (b : ScrollingBox)
  : ScrollingBox :=
  if updateScrollingOnNextFrame b then
    match updateScrolling false focusedView b with
    | (true, (b', _)) => set_updateScrollingOnNextFrame false b'
    | (false, (b', _)) => b'
    end
  else b.

(** [ScrollingBox::scrollAnimationTick]: the top position given to the
    flat box. *)
Definition scrollAnimationTick (b : ScrollingBox) : Q :=
  (- (scrollY b * getContentHeight b))%Q.

End ScrollingLifecycle.

(** ** Showing, hiding and collapsing a view *)

Module ViewState.
Import Frame.

Definition is_save (c : DrawCall) : bool :=
  match c with nvgSave => true | _ => false end.

Definition is_restore (c : DrawCall) : bool :=
  match c with nvgRestore => true | _ => false end.

Definition is_draw (c : DrawCall) : bool :=
  match c with draw _ _ _ _ _ => true | _ => false end.

Definition is_rect (c : DrawCall) : bool :=
  match c with nvgRect _ _ _ _ => true | _ => false end.

Definition count (p : DrawCall -> bool) (calls : list DrawCall) : nat :=
  length (filter (fun c => p c = true) calls).

Definition set_alpha (value : Q) (v : View) : View :=
  mkView (visibility v) (themeOverride v) value (parentAlpha v)
    (collapseState v) (highlightAlpha v) (isHighlightBackgroundEnabled v)
    (getX v) (getY v) (getWidth v) (getHeight v) (borderColor v)
    (borderTop v) (borderRight v) (borderBottom v) (borderLeft v).

Definition set_collapseState (value : Q) (v : View) : View :=
  mkView (visibility v) (themeOverride v) (alpha v) (parentAlpha v)
    value (highlightAlpha v) (isHighlightBackgroundEnabled v)
    (getX v) (getY v) (getWidth v) (getHeight v) (borderColor v)
    (borderTop v) (borderRight v) (borderBottom v) (borderLeft v).

(** [View::setVisibility], on the fields of the view (the layout node,
    the life cycle hook and the invalidation are outside them). *)
Definition setVisibility (visibility' : Visibility) (v : View) : View :=
  mkView visibility' (themeOverride v) (alpha v) (parentAlpha v)
    (collapseState v) (highlightAlpha v) (isHighlightBackgroundEnabled v)
    (getX v) (getY v) (getWidth v) (getHeight v) (borderColor v)
    (borderTop v) (borderRight v) (borderBottom v) (borderLeft v).

Definition setAlpha (alpha' : Q) (v : View) : View := set_alpha alpha' v.

(** An animation handed to the scheduler: the value the animated field is
    driven to. *)
Record Animation := mkAnimation { target_value : Q }.

(** [View::collapse] and [View::expand]: at once, or by an animation that
    leaves the field as it is for now. *)
Definition collapse (animated : bool) (v : View) : View * option Animation :=
  if animated then (v, Some (mkAnimation 0))
  else (set_collapseState 0 v, None).

Definition expand (animated : bool) (v : View) : View * option Animation :=
  if animated then (v, Some (mkAnimation 1))
  else (set_collapseState 1 v, None).

Definition isCollapsed (v : View) : bool := Qltb (collapseState v) 1.

(** The view with the flags that [show] and [hide] keep. *)
Record Fading := mkFading {
  view : View;
  hidden : bool;
  fadeIn : bool;
  inFadeAnimation : bool;
}.

Definition isHidden (f : Fading) : bool := hidden f.

Definition isTranslucent (f : Fading) : bool := fadeIn f || inFadeAnimation f.

(** [View::show(cb, animate, duration)] *)
Definition show (animate : bool) (f : Fading) : Fading * option Animation :=
  if animate
  then (mkFading (set_alpha 0 (view f)) false true (inFadeAnimation f),
        Some (mkAnimation 1))
  else (mkFading (set_alpha 1 (view f)) false false (inFadeAnimation f), None).

(** [View::hide(cb, animated, duration)] *)
Definition hide (animated : bool) (f : Fading) : Fading * option Animation :=
  if animated
  then (mkFading (set_alpha 1 (view f)) true false (inFadeAnimation f),
        Some (mkAnimation 0))
  else (mkFading (set_alpha 0 (view f)) true false (inFadeAnimation f), None).

(** Every [nvgRestore] of [calls] undoes an [nvgSave] made before it, and
    [depth] more saves than [calls] makes are undone at its end. *)
Fixpoint well_nested (depth : nat) (calls : list DrawCall) : bool :=
  match calls with
  | [] => (depth =? 0)%nat
  | nvgSave :: rest => well_nested (S depth) rest
  | nvgRestore :: rest =>
      match depth with
      | O => false
      | S depth' => well_nested depth' rest
      end
  | _ :: rest => well_nested depth rest
  end.

(** The calls that [frame] makes for a view when the theme of the frame
    context is [theme]. *)
Definition frameCalls (v : View) (theme : Theme) : list DrawCall :=
  vg (frame v (mkFrameContext theme [])).

End ViewState.

(** ** What a view inherits from its ancestors *)

Module Ancestors.

(** [View::getAlpha]: the alpha of the view times that of its parent, if
    it has one.  The list holds the alpha of the view, of its parent, of
    the parent of its parent, and so on up to the root. *)
Fixpoint getAlpha (alpha : Q) (ancestors : list Q) : Q :=
  (alpha * match ancestors with
           | [] => 1
           | parent :: above => getAlpha parent above
           end)%Q.

(** [View::getX] and [View::getY]: the position the layout engine gave
    the view within its parent, plus the position of the parent. *)
Fixpoint getPosition (layoutPosition : Q) (ancestors : list Q) : Q :=
  match ancestors with
  | [] => layoutPosition
  | parent :: above => (getPosition parent above + layoutPosition)%Q
  end.

End Ancestors.

(** ** Applying all the attributes of an XML element *)

Module XmlErrors.
Import Xml.

(** The two messages of [printXMLAttributeErrorMessage]. *)
Inductive Diagnostic :=
| IllegalValue (name value : string)
| UnknownAttribute (name value : string).

(** How [applyXMLAttributes] ends: normally, with the [std::logic_error]
    of [printXMLAttributeErrorMessage], or with an exception that came out
    of [applyXMLAttribute]. *)
Inductive Applied :=
| AllApplied
| Rejected (d : Diagnostic)
| Raised (e : Exception).

Section Elements.
Context {State : Type}.
Context (style : string -> option Q) (theme : string -> option NVGcolor).

Definition printXMLAttributeErrorMessage (v : View State)
    (name value : string) : Diagnostic :=
  if bool_decide (name ∈ knownAttributes v)
  then IllegalValue name value
  else UnknownAttribute name value.

(** [View::applyXMLAttributes] on the attributes of an element, in
    document order. *)
Fixpoint applyXMLAttributes (v : View State)
    (attributes : list (string * string)) (s : State) : Applied * State :=
  match attributes with
  | [] => (AllApplied, s)
  | (name, value) :: rest =>
      match applyXMLAttribute style theme v name value s with
      | (Normal true, s') => applyXMLAttributes v rest s'
      | (Normal false, s') =>
          (Rejected (printXMLAttributeErrorMessage v name value), s')
      | (Throw e, s') => (Raised e, s')
      end
  end.

End Elements.

End XmlErrors.

(** ** Registration of XML attributes *)

Module XmlRegistry.
Import Xml.

Section Registry.
Context {State : Type}.

(** One call of a [register...XMLAttribute] method.  The five maps and
    [knownAttributes] are private to [View]; the [register] methods are
    the only code that writes to them. *)
Inductive Registration :=
| RegisterFloat (name : string) (handler : Q -> Effect State unit)
| RegisterPercentage (name : string) (handler : Q -> Effect State unit)
| RegisterAuto (name : string) (handler : Effect State unit)
| RegisterString (name : string) (handler : string -> Effect State unit)
| RegisterColor (name : string) (handler : NVGcolor -> Effect State unit).

Definition register (v : View State) (r : Registration) : View State :=
  match r with
  | RegisterFloat name handler => registerFloatXMLAttribute name handler v
  | RegisterPercentage name handler =>
      registerPercentageXMLAttribute name handler v
  | RegisterAuto name handler => registerAutoXMLAttribute name handler v
  | RegisterString name handler => registerStringXMLAttribute name handler v
  | RegisterColor name handler => registerColorXMLAttribute name handler v
  end.

(** A view after a sequence of registrations, the first one first. *)
Definition registerAll (rs : list Registration) (v : View State)
  : View State :=
  fold_left register rs v.

(** Some map of the view has a handler under [name]. *)
Definition hasHandler (v : View State) (name : string) : bool :=
  bool_decide (is_Some (autoAttributes v !! name))
  || bool_decide (is_Some (percentageAttributes v !! name))
  || bool_decide (is_Some (floatAttributes v !! name))
  || bool_decide (is_Some (stringAttributes v !! name))
  || bool_decide (is_Some (colorAttributes v !! name)).

End Registry.

End XmlRegistry.

(** ** Default focus of the legacy [BoxLayout] *)

Module LegacyFocus.
Import Legacy.

Section DefaultFocus.

(** [childDefaultFocus i] is what [getDefaultFocus()] of the view of the
    child at place [i] of the list answers. *)
Context (childDefaultFocus : nat -> option Focus.ViewRef).

(** [BoxLayout::getDefaultFocus]: the child at [defaultFocusedIndex]
    first, then the children in order. *)
Definition BoxLayout_getDefaultFocus (b : BoxLayout)
  : option Focus.ViewRef :=
  let places := seq 0 (length (children b)) in
  let remembered :=
    if defaultFocusedIndex b <? Z.of_nat (length (children b))
    then childDefaultFocus (Z.to_nat (defaultFocusedIndex b))
    else None in
  match remembered with
  | Some newFocus => Some newFocus
  | None => Focus.firstFocus childDefaultFocus places
  end.

End DefaultFocus.

End LegacyFocus.

(** ** The content height in the words of the specification *)

Module ScrollingSpec.
Import Scrolling.

(** The span as the specification words it, to be compared with
    [contentHeightOf]: from the top of the first child, that child's own
    top margin included, to the bottom of the last child, its bottom
    margin included.  The layout engine places the top edge of a child
    below the child's top margin, so the top margin starts at
    [layoutTop - marginTop]. *)
Definition spanWithMargins (children : list ChildLayout) : Q :=
  match children !! 0%nat, children !! (length children - 1)%nat with
  | Some firstChild, Some lastChild =>
      ((layoutTop lastChild + layoutHeight lastChild
        + ntz (layoutMarginBottom lastChild))
       - (layoutTop firstChild - ntz (layoutMarginTop firstChild)))%Q
  | _, _ => 0%Q
  end.

(** The margins that lie between two consecutive children: the bottom
    margin of the upper one and the top margin of the lower one. *)
Fixpoint marginsBetween (children : list ChildLayout) : Q :=
  match children with
  | c1 :: ((c2 :: _) as rest) =>
      (ntz (layoutMarginBottom c1) + ntz (layoutMarginTop c2)
       + marginsBetween rest)%Q
  | _ => 0%Q
  end.

End ScrollingSpec.

(** ** The numerals on which [stof] is [std::stof] *)

Module XmlDomain.
Import Xml.
Local Open Scope string_scope.
Local Open Scope Z_scope.

Definition is_digit (c : ascii) : bool :=
  (48 <=? code c) && (code c <=? 57).

(** A plain decimal literal: an optional sign, then digits with at most
    one point among them and at least one digit, nothing before and
    nothing after, at most 38 characters in all.  Its value is 0 or has a
    magnitude between 10^-37 and 10^38, which a [float] holds as a normal
    number: [std::stof] converts the whole string and throws neither
    [std::invalid_argument] nor [std::out_of_range]. *)
Definition plain_decimal (s : string) : bool :=
  let '(_, l) := take_sign (list_ascii_of_string s) in
  let '(_, int_count, l) := take_digits 0 0 l in
  let '(frac_count, l) :=
    match l with
    | c :: l' =>
        if code c =? 46
        then let '(_, count, l'') := take_digits 0 0 l' in (count, l'')
        else (O, l)
    | [] => (O, [])
    end in
  match (int_count + frac_count)%nat, l with
  | S _, [] => (String.length s <=? 38)%nat
  | _, _ => false
  end.

(** A string on which [std::stof] converts nothing and throws
    [std::invalid_argument]: after white space and an optional sign the
    string ends, or goes on with a character that starts neither a
    decimal or hexadecimal number (a digit or a point) nor an infinity or
    a NaN (the letters i and n, in either case). *)
Definition no_conversion (s : string) : bool :=
  let '(_, l) := take_sign (skip_spaces (list_ascii_of_string s)) in
  match l with
  | [] => true
  | c :: _ =>
      negb (is_digit c || (code c =? 46)
            || (code c =? 105) || (code c =? 73)
            || (code c =? 110) || (code c =? 78))
  end.

(** The string that [View::applyXMLAttribute] hands to [std::stof] for a
    value, when the name has no string handler: the value without its
    unit in the px and percent branches, the value itself in the last
    branch, and nothing in the branches that do not parse a number. *)
Definition stof_argument (value : string) : option string :=
  if String.eqb value "auto" then None
  else if endsWith value "px" then
    Some (String.substring 0 (String.length value - 2) value)
  else if endsWith value "%" then
    Some (String.substring 0 (String.length value - 1) value)
  else if startsWith value "@style/" then None
  else if startsWith value "#" then None
  else if startsWith value "@theme/" then None
  else Some value.

(** The values for which [stof] answers as [std::stof] does, the
    rounding of the result to a [float] apart. *)
Definition stof_modelled (value : string) : bool :=
  match stof_argument value with
  | Some numeral => plain_decimal numeral || no_conversion numeral
  | None => true
  end.

End XmlDomain.

(* ===================================================================== *)
(** * Properties *)
(* ===================================================================== *)

(** ** Machine integers *)

Lemma size_t_wrap_range z : 0 <= size_t_wrap z <= SIZE_MAX.
Proof.
  unfold size_t_wrap, SIZE_MAX.
  pose proof (Z.mod_pos_bound z (2 ^ 64) ltac:(lia)). lia.
Qed.

Lemma size_t_wrap_small z : 0 <= z <= SIZE_MAX -> size_t_wrap z = z.
Proof. unfold size_t_wrap, SIZE_MAX. intros H. apply Z.mod_small. lia. Qed.

Lemma size_t_wrap_minus_one : size_t_wrap (-1) = SIZE_MAX.
Proof. reflexivity. Qed.

(** Stepping backwards with the wrapped offset [(size_t)-1]. *)
Lemma size_t_wrap_pred z :
  1 <= z <= SIZE_MAX -> size_t_wrap (z + size_t_wrap (-1)) = z - 1.
Proof.
  intros H. rewrite size_t_wrap_minus_one. unfold size_t_wrap, SIZE_MAX in *.
  replace (z + (2 ^ 64 - 1)) with (z - 1 + 1 * 2 ^ 64) by lia.
  rewrite Z.mod_add by lia. apply Z.mod_small. lia.
Qed.

Lemma size_t_wrap_pred_zero : size_t_wrap (0 + size_t_wrap (-1)) = SIZE_MAX.
Proof. reflexivity. Qed.

(** ** Focus traversal *)

Section FocusLists.
Import Focus.
Context {V : Type} (childDefaultFocus : V -> option ViewRef).

Lemma focusAt_lookup (l : list V) (i : nat) :
  focusAt childDefaultFocus l i = l !! i ≫= childDefaultFocus.
Proof.
  revert i. induction l as [|c l IH]; intros [|i]; simpl; auto.
Qed.

Lemma firstFocus_None (l : list V) :
  firstFocus childDefaultFocus l = None <-> Forall (fun c => childDefaultFocus c = None) l.
Proof.
  induction l as [|c l IH]; simpl.
  - split; auto.
  - destruct (childDefaultFocus c) eqn:E.
    + split; [discriminate|]. intros H. inversion H; congruence.
    + rewrite IH. split; [intros H; constructor; auto|].
      intros H. inversion H; auto.
Qed.

Lemma firstFocus_Some (l : list V) (r : ViewRef) :
  firstFocus childDefaultFocus l = Some r <->
  exists (j : nat) (c : V),
    l !! j = Some c /\ childDefaultFocus c = Some r /\
    forall (k : nat) (c' : V),
      (k < j)%nat -> l !! k = Some c' -> childDefaultFocus c' = None.
Proof.
  induction l as [|c l IH]; simpl.
  - split; [discriminate|]. intros (j & c & H & _). destruct j; discriminate.
  - destruct (childDefaultFocus c) eqn:E.
    + split.
      * intros [= <-]. exists O, c. repeat split; auto. intros; lia.
      * intros (j & c' & Hj & Hr & Hlt). destruct j as [|j].
        -- simpl in Hj. congruence.
        -- specialize (Hlt O c ltac:(lia) eq_refl). congruence.
    + rewrite IH. split.
      * intros (j & c' & Hj & Hr & Hlt). exists (S j), c'.
        repeat split; auto. intros [|k] c'' Hk Hc''; simpl in Hc''.
        -- congruence.
        -- apply (Hlt k); auto. lia.
      * intros (j & c' & Hj & Hr & Hlt). destruct j as [|j].
        -- simpl in Hj. congruence.
        -- exists j, c'. repeat split; auto.
           intros k c'' Hk Hc''. apply (Hlt (S k)); auto. lia.
Qed.

(** With the index at its initial value the "remembered" child is the
    first child, which the fallback loop tries first anyway. *)
Lemma Box_getDefaultFocus_with_index0 (b : BoxData V) :
  defaultFocusedIndex b = 0 ->
  Box_getDefaultFocus_with childDefaultFocus b
  = firstFocus childDefaultFocus (children b).
Proof.
  intros H0. unfold Box_getDefaultFocus_with. rewrite H0.
  destruct (children b) as [|c l]; simpl; [reflexivity|].
  destruct (childDefaultFocus c); reflexivity.
Qed.
End FocusLists.

Section FocusBox.
Import Focus.

Lemma Box_addViews_children (b : Box) (views : list View) :
  children (Box_addViews b views) = children b ++ views.
Proof.
  unfold Box_addViews. revert b.
  induction views as [|v views IH]; intros b; simpl.
  - by rewrite app_nil_r.
  - rewrite IH. simpl. by rewrite <- app_assoc.
Qed.

Lemma Box_addViews_defaultFocusedIndex (b : Box) (views : list View) :
  defaultFocusedIndex (Box_addViews b views) = defaultFocusedIndex b.
Proof.
  unfold Box_addViews. revert b.
  induction views as [|v views IH]; intros b; simpl; [done|].
  by rewrite IH.
Qed.

(** The position that [addView] hands to a child is the index at which
    the child then sits. *)
Lemma Box_addView_userdata_index (b : Box) (view : View) :
  Z.of_nat (length (children b)) <= SIZE_MAX ->
  children (Box_addView b view) !! Z.to_nat (Box_addView_userdata b)
  = Some view.
Proof.
  intros Hsz. unfold Box_addView_userdata.
  rewrite size_t_wrap_small by lia. rewrite Nat2Z.id. simpl.
  by rewrite lookup_app_r, Nat.sub_diag.
Qed.

(** A box is a view: its default focus as a view is its default focus as
    a box. *)
Lemma View_getDefaultFocus_box (self : ViewRef) (b : Box) :
  View_getDefaultFocus (BoxView self b) = Box_getDefaultFocus b.
Proof. reflexivity. Qed.

Lemma Box_addViews_axis (b : Box) (views : list View) :
  axis (Box_addViews b views) = axis b.
Proof.
  unfold Box_addViews. revert b.
  induction views as [|v views IH]; intros b; simpl; [done|].
  by rewrite IH.
Qed.

(** The guard of the loop comes before every read. *)
Lemma scanChildren_in_bounds fuel cs offset idx :
  scanChildren fuel cs offset idx <> OutOfBounds.
Proof.
  revert idx. induction fuel as [|fuel IH]; intros idx; simpl; [done|].
  destruct (0 <=? idx) eqn:Hlo; simpl; [|done].
  destruct (idx <? Z.of_nat (length cs)) eqn:Hhi; [|done].
  apply Z.leb_le in Hlo. apply Z.ltb_lt in Hhi.
  destruct (lookup_lt_is_Some_2 cs (Z.to_nat idx) ltac:(lia)) as [c Hc].
  rewrite Hc. destruct (View_getDefaultFocus c); [done|apply IH].
Qed.

(** Scanning forwards: what the loop returns comes from the first
    acceptor at or after the starting index. *)
Lemma scanChildren_forward_sound fuel cs idx v :
  Z.of_nat (length cs) <= SIZE_MAX -> 0 <= idx ->
  scanChildren fuel cs 1 idx = Returned (Some v) ->
  exists (j : nat) (c : View),
    idx <= Z.of_nat j /\ cs !! j = Some c /\
    View_getDefaultFocus c = Some v /\
    forall (k : nat) (c' : View),
      idx <= Z.of_nat k -> (k < j)%nat -> cs !! k = Some c' ->
      View_getDefaultFocus c' = None.
Proof.
  intros Hsz. revert idx. induction fuel as [|fuel IH]; intros idx Hidx;
    simpl; [done|].
  destruct (0 <=? idx) eqn:Hlo; simpl; [|done].
  destruct (idx <? Z.of_nat (length cs)) eqn:Hhi; [|done].
  apply Z.ltb_lt in Hhi.
  destruct (cs !! Z.to_nat idx) as [c|] eqn:Hc; [|done].
  destruct (View_getDefaultFocus c) as [w|] eqn:Hw.
  - intros [= <-]. exists (Z.to_nat idx), c.
    repeat split; auto; [lia|]. intros; lia.
  - rewrite size_t_wrap_small by (unfold SIZE_MAX in *; lia).
    intros Hscan. destruct (IH (idx + 1) ltac:(lia) Hscan)
      as (j & c' & Hj & Hcj & Hv & Hbefore).
    exists j, c'. repeat split; auto; [lia|].
    intros k c'' Hk Hkj Hck.
    destruct (decide (Z.of_nat k = idx)) as [Heq|Hne].
    + subst idx. rewrite Nat2Z.id in Hc. congruence.
    + apply (Hbefore k); auto. lia.
Qed.

(** Scanning forwards ends at the end of the vector at the latest. *)
Lemma scanChildren_forward_returns fuel cs idx :
  Z.of_nat (length cs) <= SIZE_MAX -> 0 <= idx ->
  (1 <= fuel)%nat -> Z.of_nat (length cs) < Z.of_nat fuel + idx ->
  exists r, scanChildren fuel cs 1 idx = Returned r.
Proof.
  intros Hsz. revert idx.
  induction fuel as [|fuel IH]; intros idx Hidx Hpos Hfuel.
  - exfalso. lia.
  - simpl. destruct (0 <=? idx) eqn:Hlo; simpl; [|eauto].
    destruct (idx <? Z.of_nat (length cs)) eqn:Hhi; [|eauto].
    apply Z.ltb_lt in Hhi.
    destruct (lookup_lt_is_Some_2 cs (Z.to_nat idx) ltac:(lia)) as [c Hc].
    rewrite Hc. destruct (View_getDefaultFocus c); [eauto|].
    rewrite size_t_wrap_small by (unfold SIZE_MAX in *; lia).
    apply IH; lia.
Qed.

Lemma scanChildren_out_of_range fuel cs offset idx :
  Z.of_nat (length cs) <= idx ->
  scanChildren (S fuel) cs offset idx = Returned None.
Proof.
  intros H. simpl.
  replace (idx <? Z.of_nat (length cs)) with false
    by (symmetry; apply Z.ltb_ge; lia).
  by rewrite andb_false_r.
Qed.
(** Scanning backwards: the index goes down to 0, and the step after
    that wraps to [SIZE_MAX], which is not below the size. *)
Lemma scanChildren_backward_returns fuel cs idx :
  Z.of_nat (length cs) <= SIZE_MAX ->
  0 <= idx < Z.of_nat (length cs) ->
  idx + 2 <= Z.of_nat fuel ->
  exists r, scanChildren fuel cs (size_t_wrap (-1)) idx = Returned r.
Proof.
  intros Hsz. revert idx. induction fuel as [|fuel IH]; intros idx Hidx Hfuel.
  - exfalso. lia.
  - simpl. destruct (0 <=? idx) eqn:Hlo; simpl; [|eauto].
    destruct (idx <? Z.of_nat (length cs)) eqn:Hhi; [|eauto].
    destruct (lookup_lt_is_Some_2 cs (Z.to_nat idx) ltac:(lia)) as [c Hc].
    rewrite Hc. destruct (View_getDefaultFocus c); [eauto|].
    destruct (decide (idx = 0)) as [->|Hne].
    + rewrite size_t_wrap_pred_zero.
      destruct fuel as [|fuel]; [exfalso; lia|].
      rewrite scanChildren_out_of_range by lia. eauto.
    + rewrite size_t_wrap_pred by lia. apply IH; lia.
Qed.

End FocusBox.

(** *** C2: the axis gate of [Box::getNextFocus] *)

(** C2.  A box with axis ROW answers "no next view" to UP and to DOWN, and
    a box with axis COLUMN answers "no next view" to LEFT and to RIGHT,
    whatever its children, its default focus index and the current child
    are; the answer is given before the scanning loop starts, so it does
    not depend on the bound on iterations either. *)
Theorem Box_getNextFocus_axis_mismatch
    (fuel : nat) (cs : list Focus.View) (dfi parentUserData : Z) :
  Focus.Box_getNextFocus_fuel fuel (Focus.mkBox Focus.ROW cs dfi)
    Focus.UP parentUserData = Focus.Returned None /\
  Focus.Box_getNextFocus_fuel fuel (Focus.mkBox Focus.ROW cs dfi)
    Focus.DOWN parentUserData = Focus.Returned None /\
  Focus.Box_getNextFocus_fuel fuel (Focus.mkBox Focus.COLUMN cs dfi)
    Focus.LEFT parentUserData = Focus.Returned None /\
  Focus.Box_getNextFocus_fuel fuel (Focus.mkBox Focus.COLUMN cs dfi)
    Focus.RIGHT parentUserData = Focus.Returned None /\
  Focus.Box_getNextFocus (Focus.mkBox Focus.ROW cs dfi)
    Focus.UP parentUserData = Focus.Returned None /\
  Focus.Box_getNextFocus (Focus.mkBox Focus.ROW cs dfi)
    Focus.DOWN parentUserData = Focus.Returned None /\
  Focus.Box_getNextFocus (Focus.mkBox Focus.COLUMN cs dfi)
    Focus.LEFT parentUserData = Focus.Returned None /\
  Focus.Box_getNextFocus (Focus.mkBox Focus.COLUMN cs dfi)
    Focus.RIGHT parentUserData = Focus.Returned None.
Proof. repeat split; reflexivity. Qed.

(** *** C3: [Box::getDefaultFocus] without focus history *)

(** C3.  For a box built by its constructor and [addView] calls for
    [cs], in that order, [getDefaultFocus] returns [r] exactly when [r] is
    the answer of the first child, in insertion order, whose own
    [getDefaultFocus] is not none; and it returns none exactly when every
    child declines. *)
Theorem Box_getDefaultFocus_first_acceptor
    (a : Focus.Axis) (cs : list Focus.View) :
  let b := Focus.Box_addViews (Focus.Box_ctor a) cs in
  (forall r : Focus.ViewRef,
     Focus.Box_getDefaultFocus b = Some r <->
     exists (j : nat) (c : Focus.View),
       cs !! j = Some c /\ Focus.View_getDefaultFocus c = Some r /\
       forall (k : nat) (c' : Focus.View),
         (k < j)%nat -> cs !! k = Some c' ->
         Focus.View_getDefaultFocus c' = None) /\
  (Focus.Box_getDefaultFocus b = None <->
   Forall (fun c => Focus.View_getDefaultFocus c = None) cs).
Proof.
  intros b. unfold Focus.Box_getDefaultFocus.
  rewrite Box_getDefaultFocus_with_index0
    by (subst b; by rewrite Box_addViews_defaultFocusedIndex).
  replace (Focus.children b) with cs
    by (subst b; by rewrite Box_addViews_children).
  split.
  - intros r. apply firstFocus_Some.
  - apply firstFocus_None.
Qed.

(** *** C4: scanning to the RIGHT only moves forwards *)

(** C4.  In a ROW box, when [getNextFocus] with direction RIGHT returns a
    view for the current child at index [i], that view is the default
    focus of a child at an index [j] strictly greater than [i] (and every
    child strictly between [i] and [j] declined). *)
Theorem Box_getNextFocus_right_monotone
    (b : Focus.Box) (i : Z) (v : Focus.ViewRef) :
  Focus.axis b = Focus.ROW ->
  Z.of_nat (length (Focus.children b)) <= SIZE_MAX ->
  0 <= i < Z.of_nat (length (Focus.children b)) ->
  Focus.Box_getNextFocus b Focus.RIGHT i = Focus.Returned (Some v) ->
  exists (j : nat) (c : Focus.View),
    i < Z.of_nat j /\ Focus.children b !! j = Some c /\
    Focus.View_getDefaultFocus c = Some v /\
    forall (k : nat) (c' : Focus.View),
      i < Z.of_nat k -> (k < j)%nat -> Focus.children b !! k = Some c' ->
      Focus.View_getDefaultFocus c' = None.
Proof.
  intros Hrow Hsz Hi.
  unfold Focus.Box_getNextFocus, Focus.Box_getNextFocus_fuel.
  rewrite Hrow.
  change (Focus.axis_mismatch Focus.ROW Focus.RIGHT) with false.
  change (Focus.scan_offset Focus.ROW Focus.RIGHT) with 1.
  cbv beta iota zeta.
  rewrite size_t_wrap_small by (unfold SIZE_MAX in *; lia).
  intros Hscan.
  apply scanChildren_forward_sound in Hscan; [|exact Hsz|lia].
  destruct Hscan as (j & c & Hj & Hc & Hv & Hbefore).
  exists j, c. repeat split; auto; [lia|].
  intros k c' Hk Hkj Hck. apply (Hbefore k); auto. lia.
Qed.

Lemma Box_getNextFocus_right_monotone_witness :
  exists (j : nat) (c : Focus.View),
    0 < Z.of_nat j /\
    [Focus.Widget 1%nat (Some 1%nat); Focus.Widget 2%nat None;
     Focus.Widget 3%nat (Some 3%nat)] !! j = Some c /\
    Focus.View_getDefaultFocus c = Some 3%nat /\
    forall (k : nat) (c' : Focus.View),
      0 < Z.of_nat k -> (k < j)%nat ->
      [Focus.Widget 1%nat (Some 1%nat); Focus.Widget 2%nat None;
       Focus.Widget 3%nat (Some 3%nat)] !! k = Some c' ->
      Focus.View_getDefaultFocus c' = None.
Proof.
  apply (Box_getNextFocus_right_monotone
           (Focus.mkBox Focus.ROW
              [Focus.Widget 1%nat (Some 1%nat); Focus.Widget 2%nat None;
               Focus.Widget 3%nat (Some 3%nat)] 0) 0 3%nat).
  - reflexivity.
  - unfold SIZE_MAX. simpl. lia.
  - simpl. lia.
  - reflexivity.
Defined.

(** *** C9: the scan of [Box::getNextFocus] ends and stays in bounds *)

(** C9.  For a box whose vector of children has a size that fits a
    [size_t], and a current child whose stored index is below that size,
    [getNextFocus] returns in every direction within one iteration per
    child, and no run of it, however long, reads [children] at an index
    that is not below the size.  In particular, when the scan goes
    backwards (the offset is [(size_t)-1], that is [SIZE_MAX]) from index
    0, the first index tried is [SIZE_MAX]: the bound check rejects it and
    the result is none. *)
Theorem Box_getNextFocus_terminates_in_bounds
    (b : Focus.Box) (d : Focus.FocusDirection) (i : Z) :
  Z.of_nat (length (Focus.children b)) <= SIZE_MAX ->
  0 <= i < Z.of_nat (length (Focus.children b)) ->
  (exists r, Focus.Box_getNextFocus b d i = Focus.Returned r) /\
  (forall fuel, Focus.Box_getNextFocus_fuel fuel b d i <> Focus.OutOfBounds) /\
  (i = 0 -> Focus.scan_offset (Focus.axis b) d = SIZE_MAX ->
   size_t_wrap (i + Focus.scan_offset (Focus.axis b) d) = SIZE_MAX /\
   Focus.Box_getNextFocus b d i = Focus.Returned None).
Proof.
  intros Hsz Hi.
  assert (Hlen : exists n, length (Focus.children b) = S n).
  { destruct (length (Focus.children b)); [simpl in Hi; lia|eauto]. }
  destruct Hlen as [n Hn].
  split; [|split].
  - unfold Focus.Box_getNextFocus, Focus.Box_getNextFocus_fuel.
    destruct (Focus.axis_mismatch (Focus.axis b) d); [eauto|].
    unfold Focus.scan_offset.
    destruct (_ || _).
    + destruct (decide (i = 0)) as [->|Hne].
      * rewrite size_t_wrap_pred_zero, Hn.
        rewrite scanChildren_out_of_range by lia. eauto.
      * rewrite size_t_wrap_pred by (unfold SIZE_MAX in *; lia).
        apply scanChildren_backward_returns; lia.
    + rewrite size_t_wrap_small by (unfold SIZE_MAX in *; lia).
      apply scanChildren_forward_returns; lia.
  - intros fuel. unfold Focus.Box_getNextFocus_fuel.
    destruct (Focus.axis_mismatch (Focus.axis b) d); [done|].
    apply scanChildren_in_bounds.
  - intros -> Hoff. unfold Focus.Box_getNextFocus, Focus.Box_getNextFocus_fuel.
    rewrite Hoff. split; [reflexivity|].
    destruct (Focus.axis_mismatch (Focus.axis b) d); [done|].
    change (size_t_wrap (0 + SIZE_MAX)) with SIZE_MAX. rewrite Hn.
    apply scanChildren_out_of_range. lia.
Qed.

Lemma Box_getNextFocus_terminates_in_bounds_witness :
  let b := Focus.mkBox Focus.ROW
             [Focus.Widget 1%nat None; Focus.Widget 2%nat (Some 2%nat)] 0 in
  (exists r, Focus.Box_getNextFocus b Focus.LEFT 0 = Focus.Returned r) /\
  (forall fuel,
     Focus.Box_getNextFocus_fuel fuel b Focus.LEFT 0 <> Focus.OutOfBounds) /\
  (0 = 0 -> Focus.scan_offset (Focus.axis b) Focus.LEFT = SIZE_MAX ->
   size_t_wrap (0 + Focus.scan_offset (Focus.axis b) Focus.LEFT) = SIZE_MAX /\
   Focus.Box_getNextFocus b Focus.LEFT 0 = Focus.Returned None).
Proof.
  intros b.
  apply (Box_getNextFocus_terminates_in_bounds b Focus.LEFT 0).
  - unfold SIZE_MAX. simpl. lia.
  - simpl. lia.
Defined.

(** ** Rationals *)

Lemma Qltb_lt (a b : Q) : Qltb a b = true <-> (a < b)%Q.
Proof. unfold Qltb, Qlt. apply Z.ltb_lt. Qed.

Lemma Qltb_ge (a b : Q) : Qltb a b = false <-> (b <= a)%Q.
Proof. unfold Qltb, Qle. apply Z.ltb_ge. Qed.

Lemma sumQ_cons (q : Q) (l : list Q) : sumQ (q :: l) = (q + sumQ l)%Q.
Proof. reflexivity. Qed.

(** ** ScrollingBox *)

Section ScrollingFacts.
Import Scrolling.

Lemma last_child_lookup (c : ChildLayout) (rest : list ChildLayout) :
  (c :: rest) !! (length (c :: rest) - 1)%nat = Some (default c (last rest)).
Proof.
  rewrite Nat.sub_1_r, <- last_lookup, last_cons.
  by destruct (last rest).
Qed.

Lemma contentHeightOf_cons (c : ChildLayout) (rest : list ChildLayout) :
  contentHeightOf (c :: rest)
  = (layoutTop (default c (last rest))
     + (layoutHeight (default c (last rest))
        + ntz (layoutMarginBottom (default c (last rest))))
     - layoutTop c)%Q.
Proof.
  unfold contentHeightOf. rewrite last_child_lookup. reflexivity.
Qed.

End ScrollingFacts.

(** *** C6: content height of a [ScrollingBox] *)

(** The bottom edge of the last child of a stacked column, counted from
    the top edge of the first child: the heights and the margins between
    consecutive children. *)
Lemma column_stacked_span
    (c : Scrolling.ChildLayout) (rest : list Scrolling.ChildLayout) :
  Scrolling.column_stacked (c :: rest) ->
  (Scrolling.layoutTop (default c (last rest))
   + Scrolling.layoutHeight (default c (last rest))
   == Scrolling.layoutTop c
      + sumQ (map Scrolling.layoutHeight (c :: rest))
      + ScrollingSpec.marginsBetween (c :: rest))%Q.
Proof.
  revert c. induction rest as [|c' rest IH]; intros c Hst.
  - simpl. unfold sumQ. simpl. ring.
  - destruct Hst as [Htop Hst]. specialize (IH c' Hst).
    replace (default c (last (c' :: rest))) with (default c' (last rest))
      by (rewrite last_cons; by destruct (last rest)).
    rewrite IH, Htop.
    change (ScrollingSpec.marginsBetween (c :: c' :: rest))
      with (ntz (Scrolling.layoutMarginBottom c)
            + ntz (Scrolling.layoutMarginTop c')
            + ScrollingSpec.marginsBetween (c' :: rest))%Q.
    cbn [map]. rewrite !sumQ_cons. ring.
Qed.

(** C6.  For a scrolling box whose flat box has at least one child, the
    content height runs from the top edge of the first child as the
    layout engine placed it, which lies below that child's own top
    margin, to the bottom of the last child with its bottom margin: it is
    the span with both outer margins less the top margin of the first
    child.  When the children are stacked without spacing it is the sum
    of the heights, plus the margins between consecutive children, plus
    the bottom margin of the last child; the top margin of the first
    child is not in the sum. *)
Theorem getContentHeight_span
    (b : Scrolling.ScrollingBox)
    (firstChild : Scrolling.ChildLayout)
    (others : list Scrolling.ChildLayout) :
  Scrolling.flatBoxChildren b = firstChild :: others ->
  let lastChild := default firstChild (last others) in
  (Scrolling.getContentHeight b ==
   ScrollingSpec.spanWithMargins (Scrolling.flatBoxChildren b)
   - ntz (Scrolling.layoutMarginTop firstChild))%Q /\
  (Scrolling.column_stacked (Scrolling.flatBoxChildren b) ->
   (Scrolling.getContentHeight b ==
    sumQ (map Scrolling.layoutHeight (firstChild :: others))
    + ScrollingSpec.marginsBetween (firstChild :: others)
    + ntz (Scrolling.layoutMarginBottom lastChild))%Q).
Proof.
  intros Hcs lastChild. unfold Scrolling.getContentHeight. rewrite Hcs.
  rewrite contentHeightOf_cons. fold lastChild. split.
  - unfold ScrollingSpec.spanWithMargins.
    rewrite last_child_lookup. fold lastChild.
    change ((firstChild :: others) !! 0%nat) with (Some firstChild).
    cbv beta iota. ring.
  - intros Hst. pose proof (column_stacked_span _ _ Hst) as H.
    fold lastChild in H.
    transitivity
      ((Scrolling.layoutTop lastChild + Scrolling.layoutHeight lastChild)
       + ntz (Scrolling.layoutMarginBottom lastChild)
       - Scrolling.layoutTop firstChild)%Q; [ring|].
    rewrite H. ring.
Qed.

Lemma getContentHeight_span_witness :
  let c1 := Scrolling.mkChildLayout 10 100 (Some 10%Q) (Some 5%Q) in
  let c2 := Scrolling.mkChildLayout 118 50 (Some 3%Q) None in
  let c3 := Scrolling.mkChildLayout 168 20 None (Some 7%Q) in
  let b := Scrolling.mkScrollingBox [c1; c2; c3] 0 400 None None false 0 0 0 in
  (Scrolling.getContentHeight b == 195 - 10)%Q /\
  (Scrolling.getContentHeight b == (100 + 50 + 20) + ((5 + 3) + (0 + 0)) + 7)%Q.
Proof.
  intros c1 c2 c3 b.
  destruct (getContentHeight_span b c1 [c2; c3] eq_refl) as [Hspan Hsum].
  split.
  - apply (Qeq_trans _ _ _ Hspan). reflexivity.
  - assert (Hst : Scrolling.column_stacked (Scrolling.flatBoxChildren b)).
    { simpl. repeat split; reflexivity. }
    apply (Qeq_trans _ _ _ (Hsum Hst)). reflexivity.
Defined.

(** Three stacked children, the first with a top margin of 10 and the
    last with a bottom margin of 7: the content height is 185.  The span
    that counts the top margin of the first child is 195, and the heights
    with only the margins between the children make 178. *)
Lemma getContentHeight_leaves_out_first_top_margin :
  let c1 := Scrolling.mkChildLayout 10 100 (Some 10%Q) (Some 5%Q) in
  let c2 := Scrolling.mkChildLayout 118 50 (Some 3%Q) None in
  let c3 := Scrolling.mkChildLayout 168 20 None (Some 7%Q) in
  let b := Scrolling.mkScrollingBox [c1; c2; c3] 0 400 None None false 0 0 0 in
  Scrolling.column_stacked (Scrolling.flatBoxChildren b) /\
  (Scrolling.getContentHeight b == 185)%Q /\
  (ScrollingSpec.spanWithMargins (Scrolling.flatBoxChildren b) == 195)%Q /\
  ~ (Scrolling.getContentHeight b
     == ScrollingSpec.spanWithMargins (Scrolling.flatBoxChildren b))%Q /\
  ~ (Scrolling.getContentHeight b
     == sumQ (map Scrolling.layoutHeight (Scrolling.flatBoxChildren b))
        + ScrollingSpec.marginsBetween (Scrolling.flatBoxChildren b))%Q.
Proof.
  split; [simpl; repeat split; reflexivity|].
  repeat split; vm_compute; congruence.
Qed.

(** *** C5: clamping of the scroll target *)

(** The scroll that [updateScrolling] requests ends up in [scrollY], or in
    the animation it starts. *)
Lemma updateScrolling_applies
    (animated : bool) (fv : Scrolling.FocusedView)
    (b : Scrolling.ScrollingBox) :
  Scrolling.flatBoxChildren b <> [] ->
  exists b' anim,
    Scrolling.updateScrolling animated fv b = (true, (b', anim)) /\
    match anim with
    | Some a =>
        animated = true /\
        Scrolling.target_value a = Scrolling.newScrollOf b fv
    | None => (Scrolling.scrollY b' == Scrolling.newScrollOf b fv)%Q
    end.
Proof.
  intros Hne. unfold Scrolling.updateScrolling.
  destruct (Scrolling.flatBoxChildren b) as [|c cs] eqn:Hcs; [done|].
  unfold Scrolling.startScrolling.
  destruct (Qeq_bool _ _) eqn:Heq.
  - exists b, None. split; [done|]. apply Qeq_bool_iff in Heq.
    symmetry. exact Heq.
  - destruct animated.
    + eexists b, (Some _). split; [done|]. split; reflexivity.
    + eexists _, None. split; [done|]. reflexivity.
Qed.

(** C5 (amended).  Let the content height be positive.  With the
    prebaked bottom boundary up to date, a requested scroll that is
    positive (the content would leave the top boundary) is clamped to the
    fraction 0.  A requested scroll that fails the bottom boundary test is
    clamped to the fraction (contentHeight - areaHeight) / contentHeight
    when the content is at least as high as the scrolling area, and to the
    fraction 0 when the content is lower than the area: the top clamp runs
    after the bottom clamp and wins.  The clamped fraction is what a
    non-animated update stores in [scrollY]. *)
Theorem updateScrolling_clamp
    (b : Scrolling.ScrollingBox) (fv : Scrolling.FocusedView) :
  (0 < Scrolling.getContentHeight b)%Q ->
  let requested := Scrolling.requestedScroll b fv in
  let contentHeight := Scrolling.getContentHeight b in
  let areaHeight := Scrolling.getScrollingAreaHeight b in
  let top := Scrolling.getScrollingAreaTopBoundary b in
  ((Scrolling.bottomY b == top + areaHeight)%Q ->
   (0 < requested)%Q -> (Scrolling.newScrollOf b fv == 0)%Q) /\
  ((top + requested + contentHeight < Scrolling.bottomY b)%Q ->
   (areaHeight <= contentHeight)%Q ->
   (Scrolling.newScrollOf b fv
    == (contentHeight - areaHeight) / contentHeight)%Q) /\
  ((top + requested + contentHeight < Scrolling.bottomY b)%Q ->
   (contentHeight < areaHeight)%Q ->
   (Scrolling.newScrollOf b fv == 0)%Q) /\
  (Scrolling.flatBoxChildren b <> [] ->
   exists b',
     Scrolling.updateScrolling false fv b = (true, (b', None)) /\
     (Scrolling.scrollY b' == Scrolling.newScrollOf b fv)%Q).
Proof.
  intros Hpos requested contentHeight areaHeight top.
  assert (Hzero : (Qabs 0 / contentHeight == 0)%Q) by (simpl; apply Qmult_0_l).
  split; [|split; [|split]].
  - intros Hbaked Hreq. unfold Scrolling.newScrollOf.
    fold requested contentHeight areaHeight top.
    destruct (Qltb (top + requested + contentHeight) _) eqn:Hb.
    + apply Qltb_lt in Hb.
      replace (Qgtb (areaHeight - contentHeight) 0) with true; [exact Hzero|].
      symmetry. apply Qltb_lt. lra.
    + replace (Qgtb requested 0) with true by (symmetry; by apply Qltb_lt).
      exact Hzero.
  - intros Hbottom Hle. unfold Scrolling.newScrollOf.
    fold requested contentHeight areaHeight top.
    replace (Qltb (top + requested + contentHeight) (Scrolling.bottomY b))
      with true by (symmetry; by apply Qltb_lt).
    replace (Qgtb (areaHeight - contentHeight) 0) with false
      by (symmetry; apply Qltb_ge; lra).
    rewrite Qabs_neg by lra. unfold Qdiv. ring.
  - intros Hbottom Hlt. unfold Scrolling.newScrollOf.
    fold requested contentHeight areaHeight top.
    replace (Qltb (top + requested + contentHeight) (Scrolling.bottomY b))
      with true by (symmetry; by apply Qltb_lt).
    replace (Qgtb (areaHeight - contentHeight) 0) with true
      by (symmetry; apply Qltb_lt; lra).
    exact Hzero.
  - intros Hne.
    destruct (updateScrolling_applies false fv b Hne) as (b' & anim & Hup & Ha).
    destruct anim as [a|]; [destruct Ha; discriminate|].
    exists b'. split; assumption.
Qed.

Lemma updateScrolling_clamp_witness :
  let c1 := Scrolling.mkChildLayout 0 300 None None in
  let c2 := Scrolling.mkChildLayout 300 300 None None in
  let b := Scrolling.prebakeScrolling
             (Scrolling.mkScrollingBox [c1; c2] 0 400 None None false 0 0 0) in
  let fv := Scrolling.mkFocusedView 300 300 in
  (Scrolling.newScrollOf b fv == (600 - 400) / 600)%Q.
Proof.
  intros c1 c2 b fv.
  destruct (updateScrolling_clamp b fv) as (_ & Hbottom & _).
  - reflexivity.
  - apply (Qeq_trans _ _ _ (Hbottom ltac:(reflexivity) ltac:(discriminate))).
    reflexivity.
Defined.

(** C5, as stated, fails when the content is lower than the scrolling
    area: three children of height 100 in an area of height 400, the third
    one focused.  The request (-50) fails the bottom boundary test, and
    the result is the fraction 0, not (300 - 400) / 300. *)
Lemma updateScrolling_bottom_clamp_short_content :
  let c1 := Scrolling.mkChildLayout 0 100 None None in
  let c2 := Scrolling.mkChildLayout 100 100 None None in
  let c3 := Scrolling.mkChildLayout 200 100 None None in
  let b := Scrolling.prebakeScrolling
             (Scrolling.mkScrollingBox [c1; c2; c3] 0 400 None None
                false 0 0 0) in
  let fv := Scrolling.mkFocusedView 200 100 in
  (Scrolling.requestedScroll b fv == - (50))%Q /\
  (Scrolling.getScrollingAreaTopBoundary b + Scrolling.requestedScroll b fv
   + Scrolling.getContentHeight b < Scrolling.bottomY b)%Q /\
  ~ (Scrolling.newScrollOf b fv
     == (Scrolling.getContentHeight b - Scrolling.getScrollingAreaHeight b)
        / Scrolling.getContentHeight b)%Q /\
  (Scrolling.newScrollOf b fv == 0)%Q.
Proof.
  repeat split; vm_compute; congruence.
Qed.

(** ** The template method [View::frame] *)

Section FrameFacts.
Import Frame.

Lemma Qgtb_false_le (q : Q) : Qgtb q 0 = false <-> (q <= 0)%Q.
Proof. unfold Qgtb. apply Qltb_ge. Qed.

Lemma Qneqb_true (p q : Q) : Qneqb p q = true <-> ~ (p == q)%Q.
Proof.
  unfold Qneqb. rewrite negb_true_iff, <- not_true_iff_false.
  by rewrite Qeq_bool_iff.
Qed.

(** [drawBorder] only appends calls, and which calls it appends does not
    depend on the context. *)
Lemma drawBorder_appends (v : View) (x y w h : Q) (ctx : FrameContext) :
  drawBorder v x y w h ctx
  = mkFrameContext (theme ctx)
      (vg ctx ++ vg (drawBorder v x y w h (mkFrameContext 0%nat []))).
Proof.
  unfold drawBorder.
  destruct (_ && _); [destruct ctx; simpl; by rewrite app_nil_r|].
  unfold seq, when, call, skip.
  destruct (Qgtb (borderTop v) 0), (Qgtb (borderRight v) 0),
    (Qgtb (borderBottom v) 0), (Qgtb (borderLeft v) 0);
    simpl; f_equal; by rewrite <- ?app_assoc.
Qed.
End FrameFacts.

(** *** C7: the order of the steps of [frame] *)

(** C7 (amended).  [frame] does nothing at all when the view is not
    VISIBLE.  When it is VISIBLE and the view's alpha is positive and its
    collapse state is not 0, [frame] makes exactly these calls, in this
    order, under the overriding theme if the view has one: save;
    background; highlight background, when the highlight alpha is
    positive and the view enables it; save and height scissor, when the
    collapse state is below 1; the draw hook; highlight foreground, when
    the highlight alpha is positive; the declared borders; restore of
    the scissor, when the collapse state is below 1; restore; and the
    theme of the context is the one it was before.  When the view is
    VISIBLE but its alpha is not positive or its collapse state is 0,
    [frame] only saves and restores. *)
Theorem frame_order (v : Frame.View) (ctx : Frame.FrameContext) :
  (Frame.visibility v <> Frame.VISIBLE -> Frame.frame v ctx = ctx) /\
  (Frame.visibility v = Frame.VISIBLE ->
   (0 < Frame.alpha v)%Q -> ~ (Frame.collapseState v == 0)%Q ->
   let t := default (Frame.theme ctx) (Frame.themeOverride v) in
   Frame.frame v ctx =
   Frame.mkFrameContext (Frame.theme ctx)
     (Frame.vg ctx
      ++ [Frame.nvgSave]
      ++ [Frame.drawBackground t]
      ++ (if Qgtb (Frame.highlightAlpha v) 0
             && Frame.isHighlightBackgroundEnabled v
          then [Frame.drawHighlight t (Frame.highlightAlpha v) true]
          else [])
      ++ (if Qltb (Frame.collapseState v) 1
          then [Frame.nvgSave;
                Frame.nvgIntersectScissor (Frame.getX v) (Frame.getY v)
                  (Frame.getWidth v)
                  (Frame.getHeight v * Frame.collapseState v)]
          else [])
      ++ [Frame.draw (Frame.getX v) (Frame.getY v) (Frame.getWidth v)
            (Frame.getHeight v) t]
      ++ (if Qgtb (Frame.highlightAlpha v) 0
          then [Frame.drawHighlight t (Frame.highlightAlpha v) false]
          else [])
      ++ Frame.borderCalls v
      ++ (if Qltb (Frame.collapseState v) 1 then [Frame.nvgRestore] else [])
      ++ [Frame.nvgRestore])) /\
  (Frame.visibility v = Frame.VISIBLE ->
   (Frame.alpha v <= 0)%Q \/ (Frame.collapseState v == 0)%Q ->
   Frame.frame v ctx =
   Frame.mkFrameContext (Frame.theme ctx)
     (Frame.vg ctx ++ [Frame.nvgSave; Frame.nvgRestore])).
Proof.
  split; [|split].
  - intros Hvis. unfold Frame.frame. by rewrite bool_decide_eq_true_2.
  - intros Hvis Halpha Hcol t. unfold Frame.frame.
    rewrite bool_decide_eq_false_2 by (rewrite Hvis; auto).
    replace (Qgtb (Frame.alpha v) 0) with true
      by (symmetry; by apply Qltb_lt).
    replace (Qneqb (Frame.collapseState v) 0) with true
      by (symmetry; by apply Qneqb_true).
    unfold Frame.borderCalls.
    unfold Frame.seq, Frame.when, Frame.call_with_theme, Frame.call,
      Frame.set_theme, Frame.skip. cbn [andb].
    subst t.
    destruct (Frame.themeOverride v) as [t'|];
      destruct (Qgtb (Frame.highlightAlpha v) 0),
        (Frame.isHighlightBackgroundEnabled v),
        (Qltb (Frame.collapseState v) 1);
      cbn [andb Frame.theme Frame.vg default];
      rewrite drawBorder_appends;
      cbn [Frame.theme Frame.vg]; f_equal;
      rewrite <- ?app_assoc; reflexivity.
  - intros Hvis Hoff. unfold Frame.frame.
    rewrite bool_decide_eq_false_2 by (rewrite Hvis; auto).
    replace (Qgtb (Frame.alpha v) 0 && Qneqb (Frame.collapseState v) 0)
      with false.
    + unfold Frame.seq, Frame.when, Frame.call, Frame.set_theme, Frame.skip.
      destruct (Frame.themeOverride v); simpl; f_equal;
        by rewrite <- ?app_assoc.
    + symmetry. apply andb_false_iff. destruct Hoff as [Ha|Hc].
      * left. by apply Qgtb_false_le.
      * right. apply not_true_iff_false. rewrite Qneqb_true. tauto.
Qed.

Lemma frame_order_witness :
  let v := Frame.mkView Frame.VISIBLE (Some 7%nat) 1 1 (1 # 2) 1 true
             10 20 300 80 (nvgRGB 255 0 0) 1 0 0 0 in
  let ctx := Frame.mkFrameContext 3%nat [] in
  Frame.frame v ctx =
  Frame.mkFrameContext 3%nat
    [Frame.nvgSave;
     Frame.drawBackground 7%nat;
     Frame.drawHighlight 7%nat 1 true;
     Frame.nvgSave;
     Frame.nvgIntersectScissor 10 20 300 (80 * (1 # 2));
     Frame.draw 10 20 300 80 7%nat;
     Frame.drawHighlight 7%nat 1 false;
     Frame.nvgBeginPath;
     Frame.nvgFillColor (Frame.a v (nvgRGB 255 0 0));
     Frame.nvgRect 10 20 300 1;
     Frame.nvgFill;
     Frame.nvgRestore;
     Frame.nvgRestore].
Proof.
  intros v ctx.
  apply (proj1 (proj2 (frame_order v ctx)));
    [reflexivity | reflexivity | intros H; discriminate H].
Defined.

(** C7, as stated, fails for a VISIBLE view whose alpha is 0: [frame]
    saves and restores the graphics state and calls neither the
    background nor the draw hook. *)
Lemma frame_visible_transparent_draws_nothing :
  let v := Frame.mkView Frame.VISIBLE None 0 1 1 0 true
             10 20 300 80 (nvgRGB 255 0 0) 1 0 0 0 in
  let ctx := Frame.mkFrameContext 3%nat [] in
  Frame.visibility v = Frame.VISIBLE /\
  Frame.vg (Frame.frame v ctx) = [Frame.nvgSave; Frame.nvgRestore] /\
  (forall t, Frame.drawBackground t ∉ Frame.vg (Frame.frame v ctx)) /\
  (forall x y w h t, Frame.draw x y w h t ∉ Frame.vg (Frame.frame v ctx)).
Proof.
  intros v ctx.
  assert (Hvg : Frame.vg (Frame.frame v ctx)
                = [Frame.nvgSave; Frame.nvgRestore]) by reflexivity.
  split; [reflexivity|]. split; [exact Hvg|].
  split; intros; rewrite Hvg; intros Hin;
    repeat (apply elem_of_cons in Hin as [Hin|Hin]; [discriminate|]);
    by apply elem_of_nil in Hin.
Qed.

(** ** The legacy [BoxLayout] *)

Lemma uint32_wrap_range z : 0 <= uint32_wrap z < 2 ^ 32.
Proof. unfold uint32_wrap. apply Z.mod_pos_bound. lia. Qed.

Lemma uint32_wrap_small z : 0 <= z < 2 ^ 32 -> uint32_wrap z = z.
Proof. unfold uint32_wrap. intros H. by apply Z.mod_small. Qed.

Lemma int32_wrap_small z : - 2 ^ 31 <= z < 2 ^ 31 -> int32_wrap z = z.
Proof.
  unfold int32_wrap. intros H. rewrite Z.mod_small; lia.
Qed.

Lemma int32_wrap_uint32_wrap z : int32_wrap (uint32_wrap z) = int32_wrap z.
Proof.
  unfold int32_wrap, uint32_wrap.
  rewrite Zplus_mod_idemp_l. reflexivity.
Qed.

(** *** C8: the remembered default focus of [BoxLayout] *)

(** C8 (amended).  While the "remember last focused child" mode is on,
    [onChildFocusGained] stores the position of the focused child as the
    default focus index, and [willDisappear] puts the originally
    configured default focus index back.  While the mode is off, neither
    [onChildFocusGained] nor [willDisappear] changes the default focus
    index.  [willAppear] never changes it, and none of the three changes
    the originally configured index. *)
Theorem BoxLayout_remembered_focus
    (b : Legacy.BoxLayout) (position : nat) (resetState : bool) :
  (Legacy.rememberFocus b = true ->
   Legacy.defaultFocusedIndex (Legacy.onChildFocusGained position b)
   = size_t_wrap (Z.of_nat position) /\
   Legacy.defaultFocusedIndex (Legacy.willDisappear resetState b)
   = Legacy.originalDefaultFocus b) /\
  (Legacy.rememberFocus b = false ->
   Legacy.defaultFocusedIndex (Legacy.onChildFocusGained position b)
   = Legacy.defaultFocusedIndex b /\
   Legacy.defaultFocusedIndex (Legacy.willDisappear resetState b)
   = Legacy.defaultFocusedIndex b) /\
  Legacy.defaultFocusedIndex (Legacy.willAppear resetState b)
  = Legacy.defaultFocusedIndex b /\
  Legacy.originalDefaultFocus (Legacy.onChildFocusGained position b)
  = Legacy.originalDefaultFocus b /\
  Legacy.originalDefaultFocus (Legacy.willDisappear resetState b)
  = Legacy.originalDefaultFocus b /\
  Legacy.originalDefaultFocus (Legacy.willAppear resetState b)
  = Legacy.originalDefaultFocus b.
Proof.
  unfold Legacy.onChildFocusGained, Legacy.willDisappear, Legacy.willAppear.
  split; [|split].
  - intros Hr. simpl. rewrite Hr. split; reflexivity.
  - intros Hr. simpl. rewrite Hr. split; reflexivity.
  - simpl. destruct (Legacy.rememberFocus b); repeat split; reflexivity.
Qed.

Lemma BoxLayout_remembered_focus_witness :
  let b := Legacy.mkBoxLayout (Legacy.mkView 0 0 1280 720 1 [])
             Legacy.VERTICAL Legacy.OTHER_GRAVITY [] true 0 0 false in
  Legacy.defaultFocusedIndex (Legacy.onChildFocusGained 2 b) = 2 /\
  Legacy.defaultFocusedIndex
    (Legacy.willDisappear true (Legacy.onChildFocusGained 2 b)) = 0.
Proof.
  intros b. split.
  - apply (proj1 (BoxLayout_remembered_focus b 2 true)). reflexivity.
  - apply (proj1 (BoxLayout_remembered_focus
                    (Legacy.onChildFocusGained 2 b) 2 true)).
    reflexivity.
Defined.

(** C8, as stated, fails in both halves.  With the mode on, the index
    remembered for the third child is gone after [willDisappear].  With the
    mode off (switched off after the third child was remembered), the
    originally configured index 0 does not come back when the layout
    disappears and appears again. *)
Lemma BoxLayout_focus_memory_reset_on_disappear :
  let v := Legacy.mkView 0 0 100 100 1 [] in
  let b0 := Legacy.mkBoxLayout (Legacy.mkView 0 0 1280 720 1 [])
              Legacy.VERTICAL Legacy.OTHER_GRAVITY [] false 0 0 false in
  let b := Legacy.addView v false false
             (Legacy.addView v false false
                (Legacy.addView v false false b0)) in
  let remembering :=
    Legacy.onChildFocusGained 2 (Legacy.setRememberFocus true b) in
  let forgetting := Legacy.setRememberFocus false remembering in
  (Legacy.rememberFocus remembering = true /\
   Legacy.defaultFocusedIndex remembering = 2 /\
   Legacy.defaultFocusedIndex (Legacy.willDisappear false remembering)
   <> Legacy.defaultFocusedIndex remembering) /\
  (Legacy.rememberFocus forgetting = false /\
   Legacy.originalDefaultFocus forgetting = 0 /\
   Legacy.defaultFocusedIndex
     (Legacy.willAppear false (Legacy.willDisappear false forgetting))
   <> Legacy.originalDefaultFocus forgetting).
Proof. vm_compute. repeat split; discriminate. Qed.

(** *** C10: the RIGHT gravity pass of [BoxLayout::layout] *)

(** The pass on the [unsigned] edges that the code compares.  In a
    HORIZONTAL layout with RIGHT gravity and at least one child, when the
    last child's [unsigned] edge is beyond the layout's [unsigned] edge
    the pass changes nothing.  Otherwise the difference of the two
    [unsigned] edges is not negative, and the pass moves every child by
    it: the new [x] is [x] plus the difference (converted back to [int]),
    which is at least the old [x] whenever the sum fits an [int]; [y] and
    [width] stay. *)
Theorem BoxLayout_gravity_right
    (b : Legacy.BoxLayout) (prev_it : Legacy.BoxLayoutChild) :
  Legacy.orientation b = Legacy.HORIZONTAL ->
  Legacy.gravity b = Legacy.RIGHT ->
  last (Legacy.children b) = Some prev_it ->
  let lastViewRight := Legacy.rightEdge (Legacy.view prev_it) in
  let ourRight := Legacy.rightEdge (Legacy.self b) in
  let difference := ourRight - lastViewRight in
  (ourRight < lastViewRight -> Legacy.layoutGravity b = b) /\
  (Legacy.layoutGravity b <> b -> lastViewRight <= ourRight) /\
  (lastViewRight <= ourRight ->
   0 <= difference < 2 ^ 32 /\
   length (Legacy.children (Legacy.layoutGravity b))
   = length (Legacy.children b) /\
   forall (i : nat) (child : Legacy.BoxLayoutChild),
     Legacy.children b !! i = Some child ->
     exists child',
       Legacy.children (Legacy.layoutGravity b) !! i = Some child' /\
       Legacy.x (Legacy.view child')
       = int32_wrap (Legacy.x (Legacy.view child) + difference) /\
       (- 2 ^ 31 <= Legacy.x (Legacy.view child) + difference < 2 ^ 31 ->
        Legacy.x (Legacy.view child')
        = Legacy.x (Legacy.view child) + difference /\
        Legacy.x (Legacy.view child) <= Legacy.x (Legacy.view child')) /\
       Legacy.y (Legacy.view child') = Legacy.y (Legacy.view child) /\
       Legacy.width (Legacy.view child') = Legacy.width (Legacy.view child) /\
       Legacy.fill child' = Legacy.fill child).
Proof.
  intros Hor Hgr Hlast lastViewRight ourRight difference.
  assert (Hrun : Legacy.layoutGravity b =
                 if lastViewRight <=? ourRight
                 then Legacy.set_children
                        (map (Legacy.on_view
                                (Legacy.shiftRight (uint32_wrap difference)))
                           (Legacy.children b)) b
                 else b).
  { unfold Legacy.layoutGravity, Legacy.applyGravity.
    rewrite Hor, Hlast, Hgr. reflexivity. }
  pose proof (uint32_wrap_range
                (Legacy.getX (Legacy.view prev_it)
                 + Legacy.getWidth (Legacy.view prev_it))) as Hl.
  pose proof (uint32_wrap_range
                (Legacy.getX (Legacy.self b)
                 + Legacy.getWidth (Legacy.self b))) as Ho.
  fold (Legacy.rightEdge (Legacy.view prev_it)) in Hl.
  fold (Legacy.rightEdge (Legacy.self b)) in Ho.
  fold lastViewRight in Hl. fold ourRight in Ho.
  split; [|split].
  - intros Hover. rewrite Hrun.
    destruct (Z.leb_spec lastViewRight ourRight); [lia|reflexivity].
  - intros Hchanged.
    destruct (Z.leb_spec lastViewRight ourRight) as [Hle|Hgt]; [exact Hle|].
    exfalso. apply Hchanged. rewrite Hrun.
    destruct (Z.leb_spec lastViewRight ourRight); [lia|reflexivity].
  - intros Hle. rewrite Hrun.
    destruct (Z.leb_spec lastViewRight ourRight) as [_|Hgt]; [|lia].
    assert (Hdiff : 0 <= difference < 2 ^ 32) by (subst difference; lia).
    rewrite (uint32_wrap_small difference) by exact Hdiff.
    split; [exact Hdiff|]. split.
    + simpl. by rewrite length_map.
    + intros i child Hchild. eexists. split.
      * simpl. rewrite list_lookup_fmap, Hchild. reflexivity.
      * simpl. unfold Legacy.getX. rewrite int32_wrap_uint32_wrap.
        repeat split; try reflexivity.
        -- by apply int32_wrap_small.
        -- rewrite int32_wrap_small by assumption. lia.
Qed.

Lemma BoxLayout_gravity_right_witness :
  let c1 := Legacy.mkChild (Legacy.mkView 0 0 100 720 1 []) false in
  let c2 := Legacy.mkChild (Legacy.mkView 110 0 200 720 1 []) false in
  let b := Legacy.mkBoxLayout (Legacy.mkView 0 0 1280 720 1 [])
             Legacy.HORIZONTAL Legacy.RIGHT [c1; c2] false 0 0 false in
  exists child',
    Legacy.children (Legacy.layoutGravity b) !! 0%nat = Some child' /\
    Legacy.x (Legacy.view child') = int32_wrap (0 + (1280 - 310)) /\
    (- 2 ^ 31 <= 0 + (1280 - 310) < 2 ^ 31 ->
     Legacy.x (Legacy.view child') = 0 + (1280 - 310) /\
     0 <= Legacy.x (Legacy.view child')) /\
    Legacy.y (Legacy.view child') = 0 /\
    Legacy.width (Legacy.view child') = 100 /\
    Legacy.fill child' = false.
Proof.
  intros c1 c2 b.
  destruct (BoxLayout_gravity_right b c2 eq_refl eq_refl eq_refl)
    as (_ & _ & Hshift).
  destruct (Hshift ltac:(discriminate)) as (_ & _ & Hchildren).
  exact (Hchildren 0%nat c1 eq_refl).
Defined.

Lemma int32_wrap_add_modulus z : int32_wrap (z + 2 ^ 32) = int32_wrap z.
Proof.
  unfold int32_wrap.
  replace (z + 2 ^ 32 + 2 ^ 31) with (z + 2 ^ 31 + 1 * 2 ^ 32) by ring.
  by rewrite Z.mod_add.
Qed.

(** C10.  The two edges are [int] plus [unsigned] sums that the code
    stores in [unsigned] variables.  In a HORIZONTAL layout with RIGHT
    gravity whose own right edge [x + width] is negative, while the right
    edge of the last child is not, the children overflow the layout; yet
    the negative edge wraps around to a large [unsigned] value, the guard
    [lastViewRight <= ourRight] lets the pass run, and every child is
    moved to the left by the amount of the overflow. *)
Theorem BoxLayout_gravity_right_negative_edge
    (b : Legacy.BoxLayout) (prev_it : Legacy.BoxLayoutChild) :
  Legacy.orientation b = Legacy.HORIZONTAL ->
  Legacy.gravity b = Legacy.RIGHT ->
  last (Legacy.children b) = Some prev_it ->
  let lastViewEdge :=
    Legacy.getX (Legacy.view prev_it) + Legacy.getWidth (Legacy.view prev_it) in
  let ourEdge := Legacy.getX (Legacy.self b) + Legacy.getWidth (Legacy.self b) in
  - 2 ^ 31 <= ourEdge < 0 ->
  0 <= lastViewEdge < 2 ^ 31 ->
  forall (i : nat) (child : Legacy.BoxLayoutChild),
    Legacy.children b !! i = Some child ->
    - 2 ^ 31 <= Legacy.x (Legacy.view child) - (lastViewEdge - ourEdge) ->
    Legacy.x (Legacy.view child) < 2 ^ 31 ->
    exists child',
      Legacy.children (Legacy.layoutGravity b) !! i = Some child' /\
      Legacy.x (Legacy.view child')
      = Legacy.x (Legacy.view child) - (lastViewEdge - ourEdge) /\
      Legacy.x (Legacy.view child') < Legacy.x (Legacy.view child).
Proof.
  intros Hor Hgr Hlast lastViewEdge ourEdge Hour Hlastedge i child Hchild
    Hlow Hhigh.
  assert (HlastR : Legacy.rightEdge (Legacy.view prev_it) = lastViewEdge).
  { unfold Legacy.rightEdge. fold lastViewEdge.
    apply uint32_wrap_small. lia. }
  assert (HourR : Legacy.rightEdge (Legacy.self b) = ourEdge + 2 ^ 32).
  { unfold Legacy.rightEdge. fold ourEdge. unfold uint32_wrap.
    rewrite <- (Z.mod_add ourEdge 1 (2 ^ 32)) by lia.
    apply Z.mod_small. lia. }
  unfold Legacy.layoutGravity, Legacy.applyGravity.
  rewrite Hor, Hlast, Hgr. cbv zeta. rewrite HlastR, HourR.
  replace (lastViewEdge <=? ourEdge + 2 ^ 32) with true
    by (symmetry; apply Z.leb_le; lia).
  rewrite (uint32_wrap_small (ourEdge + 2 ^ 32 - lastViewEdge)) by lia.
  eexists. split.
  - simpl. rewrite list_lookup_fmap, Hchild. reflexivity.
  - simpl. unfold Legacy.getX. rewrite int32_wrap_uint32_wrap.
    replace (Legacy.x (Legacy.view child)
             + (ourEdge + 2 ^ 32 - lastViewEdge))
      with (Legacy.x (Legacy.view child) - (lastViewEdge - ourEdge)
            + 2 ^ 32) by ring.
    rewrite int32_wrap_add_modulus, int32_wrap_small by lia.
    split; [reflexivity|lia].
Qed.

Lemma BoxLayout_gravity_right_negative_edge_witness :
  let child := Legacy.mkChild (Legacy.mkView (-100) 0 200 50 1 []) false in
  let b := Legacy.mkBoxLayout (Legacy.mkView (-100) 0 50 50 1 [])
             Legacy.HORIZONTAL Legacy.RIGHT [child] false 0 0 false in
  exists child',
    Legacy.children (Legacy.layoutGravity b) !! 0%nat = Some child' /\
    Legacy.x (Legacy.view child') = -100 - (100 - (-50)) /\
    Legacy.x (Legacy.view child') < -100.
Proof.
  intros child b.
  assert (Hour : - 2 ^ 31 <= -100 + 50 < 0) by lia.
  assert (Hlast : 0 <= -100 + 200 < 2 ^ 31) by lia.
  assert (Hlow : - 2 ^ 31 <= -100 - (-100 + 200 - (-100 + 50))) by lia.
  assert (Hhigh : -100 < 2 ^ 31) by lia.
  exact (BoxLayout_gravity_right_negative_edge b child
           eq_refl eq_refl eq_refl Hour Hlast 0%nat child eq_refl Hlow Hhigh).
Defined.

(** ** XML attributes *)

Section XmlFacts.
Import Xml.
Context {State : Type}.
Context (style : string -> option Q) (theme : string -> option NVGcolor).

Local Open Scope string_scope.

(** "10px" goes to the float handler with the value 10. *)
Lemma applyXMLAttribute_px
    (v : View State) (name : string) (handler : Q -> Effect State unit)
    (s : State) :
  stringAttributes v !! name = None ->
  floatAttributes v !! name = Some handler ->
  applyXMLAttribute style theme v name "10px" s
  = try_catch_invalid_argument (call_return_true (handler 10%Q)) s.
Proof.
  intros Hstr Hfloat. unfold applyXMLAttribute. rewrite Hstr.
  change (String.eqb "10px" "auto") with false.
  change (endsWith "10px" "px") with true.
  change (stof (String.substring 0 (String.length "10px" - 2) "10px"))
    with (Some 10%Q).
  cbv beta iota zeta. unfold dispatch. rewrite Hfloat. reflexivity.
Qed.

(** "#FF0000" goes to the colour handler with opaque red. *)
Lemma applyXMLAttribute_rgb
    (v : View State) (name : string)
    (handler : NVGcolor -> Effect State unit) (s : State) :
  stringAttributes v !! name = None ->
  colorAttributes v !! name = Some handler ->
  applyXMLAttribute style theme v name "#FF0000" s
  = call_return_true (handler (mkNVGcolor 1 0 0 1)) s.
Proof.
  intros Hstr Hcolor. unfold applyXMLAttribute. rewrite Hstr.
  change (String.eqb "#FF0000" "auto") with false.
  change (endsWith "#FF0000" "px") with false.
  change (endsWith "#FF0000" "%") with false.
  change (startsWith "#FF0000" "@style/") with false.
  change (startsWith "#FF0000" "#") with true.
  cbv beta iota zeta.
  change (String.length "#FF0000" =? 7)%nat with true.
  change (sscanf_color 3 "#FF0000") with [255; 0; 0]%Z.
  cbv beta iota. unfold dispatch. rewrite Hcolor. reflexivity.
Qed.

(** "#FF000080" goes to the colour handler with red at alpha 128/255. *)
Lemma applyXMLAttribute_rgba
    (v : View State) (name : string)
    (handler : NVGcolor -> Effect State unit) (s : State) :
  stringAttributes v !! name = None ->
  colorAttributes v !! name = Some handler ->
  applyXMLAttribute style theme v name "#FF000080" s
  = call_return_true (handler (mkNVGcolor 1 0 0 (128 # 255))) s.
Proof.
  intros Hstr Hcolor. unfold applyXMLAttribute. rewrite Hstr.
  change (String.eqb "#FF000080" "auto") with false.
  change (endsWith "#FF000080" "px") with false.
  change (endsWith "#FF000080" "%") with false.
  change (startsWith "#FF000080" "@style/") with false.
  change (startsWith "#FF000080" "#") with true.
  cbv beta iota zeta.
  change (String.length "#FF000080" =? 7)%nat with false.
  change (String.length "#FF000080" =? 9)%nat with true.
  change (sscanf_color 4 "#FF000080") with [255; 0; 0; 128]%Z.
  cbv beta iota. unfold dispatch. rewrite Hcolor. reflexivity.
Qed.

(** A name that has a string handler never reaches the other channels. *)
Lemma applyXMLAttribute_string_first
    (v : View State) (name value : string)
    (handler : string -> Effect State unit) (s : State) :
  stringAttributes v !! name = Some handler ->
  applyXMLAttribute style theme v name value s
  = call_return_true (handler value) s.
Proof. intros Hstr. unfold applyXMLAttribute. by rewrite Hstr. Qed.
End XmlFacts.

(** *** C1: the value handed to the percentage handler *)

(** C1.  For a view and a name that has a percentage handler (and no
    string handler, which would come first), applying the value "50%"
    calls the percentage handler with the number in front of the percent
    sign, 50, and not with the fraction 0.5. *)
Theorem applyXMLAttribute_percentage_unscaled
    {State : Type}
    (style : string -> option Q) (theme : string -> option NVGcolor)
    (v : Xml.View State) (name : string)
    (handler : Q -> Xml.Effect State unit) (s : State) :
  Xml.stringAttributes v !! name = None ->
  Xml.percentageAttributes v !! name = Some handler ->
  Xml.applyXMLAttribute style theme v name "50%" s
  = Xml.try_catch_invalid_argument
      (Xml.call_return_true (handler 50%Q)) s /\
  ~ (50 == 1 # 2)%Q.
Proof.
  intros Hstr Hpct. split; [|discriminate].
  unfold Xml.applyXMLAttribute. rewrite Hstr.
  change (String.eqb "50%" "auto") with false.
  change (Xml.endsWith "50%" "px") with false.
  change (Xml.endsWith "50%" "%") with true.
  change (Xml.stof (String.substring 0 (String.length "50%" - 1) "50%"))
    with (Some 50%Q).
  cbv beta iota zeta.
  change (Qltb 50 0 || Qgtb 50 100) with false.
  cbv beta iota. unfold Xml.dispatch. rewrite Hpct. reflexivity.
Qed.

Lemma applyXMLAttribute_percentage_unscaled_witness :
  let record : Q -> Xml.Effect (list Q) unit :=
    fun value calls => (Xml.Normal tt, calls ++ [value]) in
  let v := Xml.registerPercentageXMLAttribute "width" record
             Xml.noAttributes in
  Xml.applyXMLAttribute (fun _ => None) (fun _ => None) v "width" "50%" []
  = (Xml.Normal true, [50%Q]) /\
  ~ (50 == 1 # 2)%Q.
Proof.
  intros record v.
  apply (applyXMLAttribute_percentage_unscaled
           (fun _ => None) (fun _ => None) v "width" record []).
  - reflexivity.
  - reflexivity.
Defined.

(* ===================================================================== *)
(** * Further properties *)
(* ===================================================================== *)

(** ** Focus traversal *)

Section FocusMore.
Import Focus.

(** Scanning backwards: what the loop returns comes from the nearest
    acceptor at or before the starting index. *)
Lemma scanChildren_backward_sound fuel cs idx v :
  Z.of_nat (length cs) <= SIZE_MAX ->
  0 <= idx < Z.of_nat (length cs) ->
  scanChildren fuel cs (size_t_wrap (-1)) idx = Returned (Some v) ->
  exists (j : nat) (c : View),
    Z.of_nat j <= idx /\ cs !! j = Some c /\
    View_getDefaultFocus c = Some v /\
    forall (k : nat) (c' : View),
      (j < k)%nat -> Z.of_nat k <= idx -> cs !! k = Some c' ->
      View_getDefaultFocus c' = None.
Proof.
  intros Hsz. revert idx. induction fuel as [|fuel IH]; intros idx Hidx;
    simpl; [done|].
  destruct (0 <=? idx) eqn:Hlo; simpl; [|done].
  destruct (idx <? Z.of_nat (length cs)) eqn:Hhi; [|done].
  destruct (cs !! Z.to_nat idx) as [c|] eqn:Hc; [|done].
  destruct (View_getDefaultFocus c) as [w|] eqn:Hw.
  - intros [= <-]. exists (Z.to_nat idx), c.
    repeat split; auto; [lia|]. intros; lia.
  - destruct (decide (idx = 0)) as [->|Hne].
    + rewrite size_t_wrap_pred_zero. destruct fuel as [|fuel]; [done|].
      rewrite scanChildren_out_of_range by lia. done.
    + rewrite size_t_wrap_pred by (unfold SIZE_MAX in *; lia).
      intros Hscan. destruct (IH (idx - 1) ltac:(lia) Hscan)
        as (j & c' & Hj & Hcj & Hv & Hafter).
      exists j, c'. repeat split; auto; [lia|].
      intros k c'' Hjk Hk Hck.
      destruct (decide (Z.of_nat k = idx)) as [Heq|Hneq].
      * subst idx. rewrite Nat2Z.id in Hc. congruence.
      * apply (Hafter k); auto. lia.
Qed.

(** A forward scan that finds nothing has seen every child from the
    starting index on decline. *)
Lemma scanChildren_forward_none fuel cs idx :
  Z.of_nat (length cs) <= SIZE_MAX -> 0 <= idx ->
  scanChildren fuel cs 1 idx = Returned None ->
  forall (k : nat) (c : View),
    idx <= Z.of_nat k -> cs !! k = Some c -> View_getDefaultFocus c = None.
Proof.
  intros Hsz. revert idx. induction fuel as [|fuel IH]; intros idx Hidx;
    simpl; [done|].
  destruct (0 <=? idx) eqn:Hlo; simpl; [|apply Z.leb_gt in Hlo; lia].
  destruct (idx <? Z.of_nat (length cs)) eqn:Hhi.
  - destruct (cs !! Z.to_nat idx) as [c|] eqn:Hc; [|done].
    destruct (View_getDefaultFocus c) as [w|] eqn:Hw; [done|].
    rewrite size_t_wrap_small by (apply Z.ltb_lt in Hhi; unfold SIZE_MAX in *; lia).
    intros Hscan k c' Hk Hck.
    destruct (decide (Z.of_nat k = idx)) as [Heq|Hneq].
    + subst idx. rewrite Nat2Z.id in Hc. congruence.
    + apply (IH (idx + 1) ltac:(lia) Hscan k); auto. lia.
  - intros _ k c' Hk Hck. apply Z.ltb_ge in Hhi.
    apply lookup_lt_Some in Hck. lia.
Qed.

(** The same for a backward scan. *)
Lemma scanChildren_backward_none fuel cs idx :
  Z.of_nat (length cs) <= SIZE_MAX ->
  0 <= idx < Z.of_nat (length cs) ->
  scanChildren fuel cs (size_t_wrap (-1)) idx = Returned None ->
  forall (k : nat) (c : View),
    Z.of_nat k <= idx -> cs !! k = Some c -> View_getDefaultFocus c = None.
Proof.
  intros Hsz. revert idx. induction fuel as [|fuel IH]; intros idx Hidx;
    simpl; [done|].
  destruct (0 <=? idx) eqn:Hlo; simpl; [|apply Z.leb_gt in Hlo; lia].
  destruct (idx <? Z.of_nat (length cs)) eqn:Hhi;
    [|apply Z.ltb_ge in Hhi; lia].
  destruct (cs !! Z.to_nat idx) as [c|] eqn:Hc; [|done].
  destruct (View_getDefaultFocus c) as [w|] eqn:Hw; [done|].
  intros Hscan k c' Hk Hck.
  destruct (decide (Z.of_nat k = idx)) as [Heq|Hneq].
  - subst idx. rewrite Nat2Z.id in Hc. congruence.
  - destruct (decide (idx = 0)) as [->|Hne]; [lia|].
    rewrite size_t_wrap_pred in Hscan by (unfold SIZE_MAX in *; lia).
    apply (IH (idx - 1) ltac:(lia) Hscan k); auto. lia.
Qed.

(** The generic form of [Box::getDefaultFocus]: when it finds nothing,
    every child declined, and conversely. *)
Lemma Box_getDefaultFocus_with_None {V : Type}
    (f : V -> option ViewRef) (b : BoxData V) :
  Box_getDefaultFocus_with f b = None <->
  Forall (fun c => f c = None) (children b).
Proof.
  unfold Box_getDefaultFocus_with. split.
  - destruct (if _ <? _ then _ else _); [done|]. apply firstFocus_None.
  - intros Hall.
    assert (Hfirst : firstFocus f (children b) = None)
      by (by apply firstFocus_None).
    rewrite Hfirst.
    destruct (_ <? _); [|done]. rewrite focusAt_lookup.
    destruct (children b !! _) as [c|] eqn:Hc; [|done]. simpl.
    rewrite Forall_forall in Hall. rewrite Hall; [done|].
    by eapply list_elem_of_lookup_2.
Qed.
End FocusMore.

(** X1.  Whatever the default focus index of a box is: [getDefaultFocus]
    returns none exactly when every child declines; what it returns is
    the default focus of one of the children; and when the index points
    at a child that accepts, the answer of that child is returned, even
    if an earlier child would accept too. *)
Theorem Box_getDefaultFocus_any_index (b : Focus.Box) :
  (Focus.Box_getDefaultFocus b = None <->
   Forall (fun c => Focus.View_getDefaultFocus c = None)
     (Focus.children b)) /\
  (forall r : Focus.ViewRef,
     Focus.Box_getDefaultFocus b = Some r ->
     exists (j : nat) (c : Focus.View),
       Focus.children b !! j = Some c /\
       Focus.View_getDefaultFocus c = Some r) /\
  (forall (c : Focus.View) (r : Focus.ViewRef),
     0 <= Focus.defaultFocusedIndex b
       < Z.of_nat (length (Focus.children b)) ->
     Focus.children b !! Z.to_nat (Focus.defaultFocusedIndex b) = Some c ->
     Focus.View_getDefaultFocus c = Some r ->
     Focus.Box_getDefaultFocus b = Some r).
Proof.
  split; [|split].
  - apply Box_getDefaultFocus_with_None.
  - intros r. unfold Focus.Box_getDefaultFocus, Focus.Box_getDefaultFocus_with.
    destruct (if _ <? _ then _ else _) as [r'|] eqn:Hrem.
    + intros [= <-]. destruct (_ <? _); [|done].
      rewrite focusAt_lookup in Hrem.
      destruct (Focus.children b !! _) as [c|] eqn:Hc; [|done].
      eauto.
    + intros Hfirst. apply firstFocus_Some in Hfirst
        as (j & c & Hj & Hc & _). eauto.
  - intros c r Hidx Hc Hr.
    unfold Focus.Box_getDefaultFocus, Focus.Box_getDefaultFocus_with.
    replace (Focus.defaultFocusedIndex b <? _) with true
      by (symmetry; apply Z.ltb_lt; lia).
    rewrite focusAt_lookup, Hc. simpl. by rewrite Hr.
Qed.

Lemma Box_getDefaultFocus_any_index_witness :
  Focus.Box_getDefaultFocus
    (Focus.mkBox Focus.ROW
       [Focus.Widget 1%nat (Some 1%nat); Focus.Widget 2%nat (Some 2%nat)] 1)
  = Some 2%nat.
Proof.
  apply (proj2 (proj2 (Box_getDefaultFocus_any_index
                         (Focus.mkBox Focus.ROW
                            [Focus.Widget 1%nat (Some 1%nat);
                             Focus.Widget 2%nat (Some 2%nat)] 1)))
           (Focus.Widget 2%nat (Some 2%nat)) 2%nat).
  - simpl. lia.
  - reflexivity.
  - reflexivity.
Defined.

(** X2.  When [getNextFocus] scans backwards (LEFT in a ROW box, UP in a
    COLUMN box) and returns a view for the current child at index [i],
    that view is the default focus of a child at an index [j] strictly
    below [i], and every child strictly between [j] and [i] declined. *)
Theorem Box_getNextFocus_backward_nearest
    (b : Focus.Box) (d : Focus.FocusDirection) (i : Z) (v : Focus.ViewRef) :
  (Focus.axis b = Focus.ROW /\ d = Focus.LEFT) \/
  (Focus.axis b = Focus.COLUMN /\ d = Focus.UP) ->
  Z.of_nat (length (Focus.children b)) <= SIZE_MAX ->
  0 <= i < Z.of_nat (length (Focus.children b)) ->
  Focus.Box_getNextFocus b d i = Focus.Returned (Some v) ->
  exists (j : nat) (c : Focus.View),
    Z.of_nat j < i /\ Focus.children b !! j = Some c /\
    Focus.View_getDefaultFocus c = Some v /\
    forall (k : nat) (c' : Focus.View),
      (j < k)%nat -> Z.of_nat k < i -> Focus.children b !! k = Some c' ->
      Focus.View_getDefaultFocus c' = None.
Proof.
  intros Hdir Hsz Hi.
  unfold Focus.Box_getNextFocus, Focus.Box_getNextFocus_fuel.
  assert (Hgate : Focus.axis_mismatch (Focus.axis b) d = false)
    by (destruct Hdir as [[-> ->]|[-> ->]]; reflexivity).
  assert (Hoff : Focus.scan_offset (Focus.axis b) d = size_t_wrap (-1))
    by (destruct Hdir as [[-> ->]|[-> ->]]; reflexivity).
  rewrite Hgate, Hoff. cbv beta iota zeta.
  destruct (decide (i = 0)) as [->|Hne].
  - rewrite size_t_wrap_pred_zero.
    destruct (length (Focus.children b)) as [|n] eqn:Hn; [simpl in Hi; lia|].
    rewrite scanChildren_out_of_range by (rewrite Hn; lia). done.
  - rewrite size_t_wrap_pred by (unfold SIZE_MAX in *; lia).
    intros Hscan.
    apply scanChildren_backward_sound in Hscan; [|exact Hsz|lia].
    destruct Hscan as (j & c & Hj & Hc & Hv & Hafter).
    exists j, c. repeat split; auto; [lia|].
    intros k c' Hjk Hk Hck. apply (Hafter k); auto. lia.
Qed.

Lemma Box_getNextFocus_backward_nearest_witness :
  exists (j : nat) (c : Focus.View),
    Z.of_nat j < 2 /\
    [Focus.Widget 1%nat (Some 1%nat); Focus.Widget 2%nat None;
     Focus.Widget 3%nat (Some 3%nat)] !! j = Some c /\
    Focus.View_getDefaultFocus c = Some 1%nat /\
    forall (k : nat) (c' : Focus.View),
      (j < k)%nat -> Z.of_nat k < 2 ->
      [Focus.Widget 1%nat (Some 1%nat); Focus.Widget 2%nat None;
       Focus.Widget 3%nat (Some 3%nat)] !! k = Some c' ->
      Focus.View_getDefaultFocus c' = None.
Proof.
  apply (Box_getNextFocus_backward_nearest
           (Focus.mkBox Focus.COLUMN
              [Focus.Widget 1%nat (Some 1%nat); Focus.Widget 2%nat None;
               Focus.Widget 3%nat (Some 3%nat)] 0) Focus.UP 2 1%nat).
  - right. split; reflexivity.
  - unfold SIZE_MAX. simpl. lia.
  - simpl. lia.
  - reflexivity.
Defined.

(** X3.  For a current child at index [i] of a box, [getNextFocus] in a
    direction the axis honours answers "no next view" exactly when every
    child on that side of [i] declines: every later child when it scans
    forwards (RIGHT, DOWN), every earlier child when it scans backwards
    (LEFT, UP). *)
Theorem Box_getNextFocus_none_iff
    (b : Focus.Box) (d : Focus.FocusDirection) (i : Z) :
  Focus.axis_mismatch (Focus.axis b) d = false ->
  Z.of_nat (length (Focus.children b)) <= SIZE_MAX ->
  0 <= i < Z.of_nat (length (Focus.children b)) ->
  (Focus.Box_getNextFocus b d i = Focus.Returned None <->
   forall (k : nat) (c : Focus.View),
     (if decide (Focus.scan_offset (Focus.axis b) d = 1)
      then i < Z.of_nat k else Z.of_nat k < i) ->
     Focus.children b !! k = Some c ->
     Focus.View_getDefaultFocus c = None).
Proof.
  intros Hgate Hsz Hi.
  unfold Focus.Box_getNextFocus, Focus.Box_getNextFocus_fuel.
  rewrite Hgate. cbv beta iota zeta.
  assert (Hoff : Focus.scan_offset (Focus.axis b) d = 1 \/
                 Focus.scan_offset (Focus.axis b) d = size_t_wrap (-1)).
  { unfold Focus.scan_offset. destruct (_ || _); auto. }
  assert (Hlen : exists n, length (Focus.children b) = S n).
  { destruct (length (Focus.children b)); [simpl in Hi; lia|eauto]. }
  destruct Hlen as [n Hn].
  destruct (decide (Focus.scan_offset (Focus.axis b) d = 1)) as [Hfwd|Hbwd].
  - rewrite Hfwd.
    rewrite size_t_wrap_small by (unfold SIZE_MAX in *; lia). split.
    + intros Hscan k c Hk Hc.
      apply (scanChildren_forward_none (length (Focus.children b))
               (Focus.children b) (i + 1) Hsz ltac:(lia) Hscan k c);
        [lia|exact Hc].
    + intros Hall.
      destruct (scanChildren_forward_returns
                  (length (Focus.children b)) (Focus.children b) (i + 1))
        as [[v|] Hr]; try lia; [|exact Hr].
      exfalso. pose proof Hr as Hs.
      apply scanChildren_forward_sound in Hs; [|exact Hsz|lia].
      destruct Hs as (j & c & Hj & Hc & Hv & _).
      rewrite (Hall j c ltac:(lia) Hc) in Hv. discriminate.
  - destruct Hoff as [Hoff|Hoff]; [contradiction|]. rewrite Hoff.
    destruct (decide (i = 0)) as [->|Hne].
    + rewrite size_t_wrap_pred_zero, Hn.
      rewrite scanChildren_out_of_range by lia.
      split; [intros _ k c Hk; lia|done].
    + rewrite size_t_wrap_pred by (unfold SIZE_MAX in *; lia). split.
      * intros Hscan k c Hk Hc.
        apply (scanChildren_backward_none (length (Focus.children b))
                 (Focus.children b) (i - 1) Hsz ltac:(lia) Hscan k c);
          [lia|exact Hc].
      * intros Hall.
        destruct (scanChildren_backward_returns
                    (length (Focus.children b)) (Focus.children b) (i - 1))
          as [[v|] Hr]; try lia; [|exact Hr].
        exfalso. pose proof Hr as Hs.
        apply scanChildren_backward_sound in Hs; [|exact Hsz|lia].
        destruct Hs as (j & c & Hj & Hc & Hv & _).
        rewrite (Hall j c ltac:(lia) Hc) in Hv. discriminate.
Qed.

Lemma Box_getNextFocus_none_iff_witness :
  let b := Focus.mkBox Focus.ROW
             [Focus.Widget 1%nat (Some 1%nat); Focus.Widget 2%nat None] 0 in
  Focus.Box_getNextFocus b Focus.RIGHT 0 = Focus.Returned None <->
  forall (k : nat) (c : Focus.View),
    (if decide (Focus.scan_offset (Focus.axis b) Focus.RIGHT = 1)
     then 0 < Z.of_nat k else Z.of_nat k < 0) ->
    Focus.children b !! k = Some c ->
    Focus.View_getDefaultFocus c = None.
Proof.
  intros b. apply (Box_getNextFocus_none_iff b Focus.RIGHT 0).
  - reflexivity.
  - unfold SIZE_MAX. simpl. lia.
  - simpl. lia.
Defined.

(** X4.  [addView] puts the view at the end: the position it hands to the
    view as parent user data is the index at which [children] then holds
    that view, the children that were there keep their index, and the
    axis and the default focus index stay. *)
Theorem Box_addView_position (b : Focus.Box) (view : Focus.View) :
  Z.of_nat (length (Focus.children b)) <= SIZE_MAX ->
  Focus.children (Focus.Box_addView b view)
    !! Z.to_nat (Focus.Box_addView_userdata b) = Some view /\
  0 <= Focus.Box_addView_userdata b
    < Z.of_nat (length (Focus.children (Focus.Box_addView b view))) /\
  (forall (j : nat) (c : Focus.View),
     Focus.children b !! j = Some c ->
     Focus.children (Focus.Box_addView b view) !! j = Some c) /\
  Focus.axis (Focus.Box_addView b view) = Focus.axis b /\
  Focus.defaultFocusedIndex (Focus.Box_addView b view)
  = Focus.defaultFocusedIndex b.
Proof.
  intros Hsz. unfold Focus.Box_addView_userdata.
  rewrite size_t_wrap_small by lia. rewrite Nat2Z.id. simpl.
  repeat split.
  - by rewrite lookup_app_r, Nat.sub_diag.
  - lia.
  - rewrite length_app. simpl. lia.
  - intros j c Hj. by apply lookup_app_l_Some.
Qed.

Lemma Box_addView_position_witness :
  let b := Focus.Box_addView (Focus.Box_ctor Focus.ROW)
             (Focus.Widget 1%nat None) in
  Focus.children (Focus.Box_addView b (Focus.Widget 2%nat None))
    !! Z.to_nat (Focus.Box_addView_userdata b)
  = Some (Focus.Widget 2%nat None).
Proof.
  intros b.
  refine (proj1 (Box_addView_position b (Focus.Widget 2%nat None) _)).
  unfold SIZE_MAX. simpl. lia.
Defined.

(** ** Culling *)

Section CullingFacts.
Import Culling.

Lemma framed_elem_of (b : Bounds) (cs : list Child) (c : Child) :
  c ∈ framed b cs <->
  c ∈ cs /\ isCulled c && out_of_bounds b (geometry c) = false.
Proof.
  induction cs as [|c' cs IH]; simpl.
  - split; [intros H; by apply elem_of_nil in H|].
    intros [H _]. by apply elem_of_nil in H.
  - destruct (isCulled c' && out_of_bounds b (geometry c')) eqn:Hskip.
    + rewrite IH, elem_of_cons. split; [tauto|].
      intros [[->|Hin] Hc]; [congruence|tauto].
    + rewrite !elem_of_cons, IH. split; [|tauto].
      intros [->|[Hin Hc]]; tauto.
Qed.

Lemma framed_sublist (b : Bounds) (cs : list Child) :
  sublist (framed b cs) cs.
Proof.
  induction cs as [|c cs IH]; simpl; [constructor|].
  destruct (_ && _); by constructor.
Qed.

(** The test fails exactly when the two rectangles share a point. *)
Lemma out_of_bounds_touches (g child : Geometry) :
  (0 <= getWidth g)%Q -> (0 <= getHeight g)%Q ->
  (0 <= getWidth child)%Q -> (0 <= getHeight child)%Q ->
  out_of_bounds (Box_getCullingBounds g) child = false <-> touches g child.
Proof.
  intros Hgw Hgh Hcw Hch. unfold out_of_bounds, Box_getCullingBounds, Qgtb.
  cbn [top right bottom left].
  rewrite !orb_false_iff, !Qltb_ge. unfold touches, inside. split.
  - intros [[[H1 H2] H3] H4].
    exists (if Qlt_le_dec (getX g) (getX child) then getX child else getX g),
      (if Qlt_le_dec (getY g) (getY child) then getY child else getY g).
    destruct (Qlt_le_dec (getX g) (getX child)),
      (Qlt_le_dec (getY g) (getY child)); repeat split; lra.
  - intros (px & py & (Ha & Hb & Hc & Hd) & (He & Hf & Hg & Hh)).
    repeat split; lra.
Qed.
End CullingFacts.

(** X5.  [Box::draw] calls [frame] on the children in their order, each
    at most as often as it occurs, and on a child exactly when the child
    has opted out of culling or its rectangle shares at least one point
    (edges included) with the culling rectangle.  That rectangle is the
    rectangle of the box itself, and for the flat box of a scrolling box
    the rectangle of its parent, whatever the geometry of the flat box
    is. *)
Theorem Box_draw_culling
    (cls : Culling.BoxClass) (g : Culling.Geometry)
    (children : list Culling.Child) (child : Culling.Child) :
  let area :=
    match cls with
    | Culling.PlainBox => g
    | Culling.ScrollingBoxInternalBox parent => parent
    end in
  (0 <= Culling.getWidth area)%Q -> (0 <= Culling.getHeight area)%Q ->
  (0 <= Culling.getWidth (Culling.geometry child))%Q ->
  (0 <= Culling.getHeight (Culling.geometry child))%Q ->
  sublist (Culling.Box_draw cls g children) children /\
  (child ∈ Culling.Box_draw cls g children <->
   child ∈ children /\
   (Culling.isCulled child = false \/
    Culling.touches area (Culling.geometry child))).
Proof.
  intros area Hw Hh Hcw Hch. unfold Culling.Box_draw. split.
  - apply framed_sublist.
  - rewrite framed_elem_of.
    assert (Hb : Culling.getCullingBounds cls g
                 = Culling.Box_getCullingBounds area)
      by (destruct cls; reflexivity).
    rewrite Hb, andb_false_iff.
    rewrite (out_of_bounds_touches area (Culling.geometry child))
      by assumption.
    reflexivity.
Qed.

Lemma Box_draw_culling_witness :
  let parent := Culling.mkGeometry 0 0 1280 720 in
  let flat := Culling.mkGeometry 0 (- (500)) 1280 0 in
  let above := Culling.mkChild 1%nat true (Culling.mkGeometry 0 (- (500)) 1280 100) in
  let shown := Culling.mkChild 2%nat true (Culling.mkGeometry 0 700 1280 100) in
  Culling.Box_draw (Culling.ScrollingBoxInternalBox parent) flat [above; shown]
  = [shown] /\
  (shown ∈ Culling.Box_draw (Culling.ScrollingBoxInternalBox parent) flat
             [above; shown] <->
   shown ∈ [above; shown] /\
   (Culling.isCulled shown = false \/
    Culling.touches parent (Culling.geometry shown))).
Proof.
  intros parent flat above shown. split; [reflexivity|].
  apply (Box_draw_culling (Culling.ScrollingBoxInternalBox parent) flat
           [above; shown] shown); discriminate.
Defined.

(** ** Scrolling *)

Section ScrollingMore.
Import Scrolling ScrollingLifecycle.

(** The offset behind the scroll fraction: with the prebaked bottom
    boundary up to date it lies between [areaHeight - contentHeight] and
    0, and it is 0 when the content is not higher than the area. *)
Lemma newScrollOf_times_contentHeight
    (b : ScrollingBox) (fv : FocusedView) :
  (bottomY b == getScrollingAreaTopBoundary b + getScrollingAreaHeight b)%Q ->
  (0 < getContentHeight b)%Q ->
  (0 <= newScrollOf b fv * getContentHeight b)%Q /\
  ((getScrollingAreaHeight b <= getContentHeight b)%Q ->
   (newScrollOf b fv * getContentHeight b
    <= getContentHeight b - getScrollingAreaHeight b)%Q) /\
  ((getContentHeight b <= getScrollingAreaHeight b)%Q ->
   (newScrollOf b fv * getContentHeight b == 0)%Q).
Proof.
  intros Hbaked Hpos. unfold newScrollOf.
  set (c := getContentHeight b) in *.
  set (a := getScrollingAreaHeight b) in *.
  set (t := getScrollingAreaTopBoundary b) in *.
  set (req := requestedScroll b fv).
  set (n1 := if Qltb (t + req + c) (bottomY b) then (a - c)%Q else req).
  set (n2 := if Qgtb n1 0 then 0%Q else n1).
  assert (Hn1 : (a - c <= n1)%Q).
  { subst n1. destruct (Qltb (t + req + c) (bottomY b)) eqn:Hb; [lra|].
    apply Qltb_ge in Hb. lra. }
  assert (Hn2 : (n2 <= 0)%Q /\ ((n2 == 0)%Q \/ (a - c <= n2)%Q)).
  { subst n2. unfold Qgtb. destruct (Qltb 0 n1) eqn:Hn.
    - split; [lra|left; reflexivity].
    - apply Qltb_ge in Hn. split; [exact Hn|right; exact Hn1]. }
  destruct Hn2 as [Hle Hcases].
  assert (Hmul : (Qabs n2 / c * c == - n2)%Q).
  { rewrite Qabs_neg by exact Hle. field. lra. }
  rewrite Hmul. split; [lra|]. split.
  - intros Hac. destruct Hcases; lra.
  - intros Hca. destruct Hcases; lra.
Qed.

Lemma updateScrolling_keeps_children
    (animated : bool) (fv : FocusedView) (b : ScrollingBox) :
  flatBoxChildren (fst (snd (updateScrolling animated fv b)))
  = flatBoxChildren b.
Proof.
  unfold updateScrolling. destruct (flatBoxChildren b) eqn:Hcs; [exact Hcs|].
  unfold startScrolling. destruct (Qeq_bool _ _); [exact Hcs|].
  destruct animated; exact Hcs.
Qed.
End ScrollingMore.

(** X6.  With the prebaked bottom boundary up to date, a positive content
    height and a scrolling area that is not negative, the scroll fraction
    that [updateScrolling] computes lies between 0 and 1; it is at most
    (contentHeight - areaHeight) / contentHeight when the content is at
    least as high as the area, and it is 0 when the content fits into the
    area. *)
Theorem updateScrolling_fraction_range
    (b : Scrolling.ScrollingBox) (fv : Scrolling.FocusedView) :
  (Scrolling.bottomY b ==
   Scrolling.getScrollingAreaTopBoundary b
   + Scrolling.getScrollingAreaHeight b)%Q ->
  (0 < Scrolling.getContentHeight b)%Q ->
  (0 <= Scrolling.getScrollingAreaHeight b)%Q ->
  (0 <= Scrolling.newScrollOf b fv)%Q /\
  (Scrolling.newScrollOf b fv <= 1)%Q /\
  ((Scrolling.getScrollingAreaHeight b <= Scrolling.getContentHeight b)%Q ->
   (Scrolling.newScrollOf b fv
    <= (Scrolling.getContentHeight b - Scrolling.getScrollingAreaHeight b)
       / Scrolling.getContentHeight b)%Q) /\
  ((Scrolling.getContentHeight b <= Scrolling.getScrollingAreaHeight b)%Q ->
   (Scrolling.newScrollOf b fv == 0)%Q).
Proof.
  intros Hbaked Hpos Harea.
  destruct (newScrollOf_times_contentHeight b fv Hbaked Hpos)
    as (Hlo & Hhi & Hfit).
  set (f := Scrolling.newScrollOf b fv) in *.
  set (c := Scrolling.getContentHeight b) in *.
  set (a := Scrolling.getScrollingAreaHeight b) in *.
  assert (Hf0 : (0 <= f)%Q).
  { apply (Qmult_le_r 0 f c Hpos). lra. }
  split; [exact Hf0|]. split; [|split].
  - apply (Qmult_le_r f 1 c Hpos).
    destruct (Qlt_le_dec c a) as [Hca|Hac].
    + rewrite (Hfit ltac:(lra)). lra.
    + specialize (Hhi Hac). lra.
  - intros Hac. apply Qle_shift_div_l; [exact Hpos|]. exact (Hhi Hac).
  - intros Hca. specialize (Hfit Hca).
    destruct (Qmult_integral _ _ Hfit) as [H0|H0]; [exact H0|lra].
Qed.

Lemma updateScrolling_fraction_range_witness :
  let c1 := Scrolling.mkChildLayout 0 300 None None in
  let c2 := Scrolling.mkChildLayout 300 300 None None in
  let b := Scrolling.prebakeScrolling
             (Scrolling.mkScrollingBox [c1; c2] 0 400 None None false 0 0 0) in
  let fv := Scrolling.mkFocusedView 300 300 in
  (0 <= Scrolling.newScrollOf b fv)%Q /\ (Scrolling.newScrollOf b fv <= 1)%Q.
Proof.
  intros c1 c2 b fv.
  destruct (updateScrolling_fraction_range b fv) as (H0 & H1 & _);
    [reflexivity | reflexivity | discriminate |].
  split; assumption.
Defined.

(** X7.  [willAppear] brings the prebaked middle and bottom boundaries in
    line with the geometry of the box.  With a state reset it also snaps
    the scroll to 0 and asks for an update on the next frame; without, it
    leaves the scroll and the pending flag as they are.  It never changes
    the children. *)
Theorem ScrollingBox_willAppear
    (resetState : bool) (b : Scrolling.ScrollingBox) :
  let b' := ScrollingLifecycle.willAppear resetState b in
  (Scrolling.bottomY b' ==
   Scrolling.getScrollingAreaTopBoundary b'
   + Scrolling.getScrollingAreaHeight b')%Q /\
  (Scrolling.middleY b' ==
   Scrolling.getScrollingAreaTopBoundary b'
   + Scrolling.getScrollingAreaHeight b' / 2)%Q /\
  Scrolling.flatBoxChildren b' = Scrolling.flatBoxChildren b /\
  (if resetState
   then (Scrolling.scrollY b' == 0)%Q /\
        Scrolling.updateScrollingOnNextFrame b' = true
   else Scrolling.scrollY b' = Scrolling.scrollY b /\
        Scrolling.updateScrollingOnNextFrame b'
        = Scrolling.updateScrollingOnNextFrame b).
Proof.
  unfold ScrollingLifecycle.willAppear, Scrolling.startScrolling.
  destruct resetState; cbv zeta.
  - destruct (Qeq_bool 0 (Scrolling.scrollY (Scrolling.prebakeScrolling b)))
      eqn:Heq; simpl; repeat split; try reflexivity.
    apply Qeq_bool_iff in Heq. simpl in Heq. symmetry. exact Heq.
  - simpl. repeat split; reflexivity.
Qed.

(** X8.  The update that [draw] owes after a reset is tried on every
    frame until it works: while the flat box has no children, [draw]
    leaves the box as it is, the flag still set; with children, it clears
    the flag, keeps the children and, the content height not being 0 (so
    that the division by it is defined), stores the new scroll fraction.
    Without a pending update [draw] does not touch the scroll. *)
Theorem ScrollingBox_draw_update
    (fv : Scrolling.FocusedView) (b : Scrolling.ScrollingBox) :
  (Scrolling.updateScrollingOnNextFrame b = false ->
   ScrollingLifecycle.draw_update fv b = b) /\
  (Scrolling.updateScrollingOnNextFrame b = true ->
   Scrolling.flatBoxChildren b = [] ->
   ScrollingLifecycle.draw_update fv b = b) /\
  (Scrolling.updateScrollingOnNextFrame b = true ->
   Scrolling.flatBoxChildren b <> [] ->
   Scrolling.updateScrollingOnNextFrame (ScrollingLifecycle.draw_update fv b)
   = false /\
   Scrolling.flatBoxChildren (ScrollingLifecycle.draw_update fv b)
   = Scrolling.flatBoxChildren b /\
   (~ (Scrolling.getContentHeight b == 0)%Q ->
    (Scrolling.scrollY (ScrollingLifecycle.draw_update fv b)
     == Scrolling.newScrollOf b fv)%Q)).
Proof.
  unfold ScrollingLifecycle.draw_update. split; [|split].
  - intros ->. reflexivity.
  - intros -> Hcs. unfold Scrolling.updateScrolling. by rewrite Hcs.
  - intros -> Hne.
    destruct (updateScrolling_applies false fv b Hne)
      as (b' & anim & Hup & Ha).
    pose proof (updateScrolling_keeps_children false fv b) as Hkeep.
    rewrite Hup in *. simpl in Hkeep.
    destruct anim as [a|]; [destruct Ha; discriminate|].
    simpl. split; [reflexivity|]. split; [assumption|].
    intros _. assumption.
Qed.

Lemma ScrollingBox_draw_update_witness :
  let c1 := Scrolling.mkChildLayout 0 300 None None in
  let c2 := Scrolling.mkChildLayout 300 300 None None in
  let b := ScrollingLifecycle.willAppear true
             (Scrolling.mkScrollingBox [c1; c2] 0 400 None None false 0 0 0) in
  let fv := Scrolling.mkFocusedView 300 300 in
  Scrolling.updateScrollingOnNextFrame (ScrollingLifecycle.draw_update fv b)
  = false /\
  Scrolling.flatBoxChildren (ScrollingLifecycle.draw_update fv b)
  = Scrolling.flatBoxChildren b /\
  (Scrolling.scrollY (ScrollingLifecycle.draw_update fv b)
   == Scrolling.newScrollOf b fv)%Q.
Proof.
  intros c1 c2 b fv.
  destruct (proj2 (proj2 (ScrollingBox_draw_update fv b)) eq_refl)
    as (Hflag & Hchildren & Hscroll); [discriminate|].
  split; [exact Hflag|]. split; [exact Hchildren|].
  apply Hscroll. vm_compute. discriminate.
Defined.

(** X9.  After a non-animated [updateScrolling] (prebaked bottom boundary
    up to date, positive content height), the position that
    [scrollAnimationTick] gives the flat box is never positive, so the
    content never starts below the top of the area; when the content is
    at least as high as the area the position is at least
    [areaHeight - contentHeight], so the content never ends above the
    bottom of the area; and when the content fits into the area the
    position is 0. *)
Theorem scrollAnimationTick_position_range
    (b : Scrolling.ScrollingBox) (fv : Scrolling.FocusedView) :
  (Scrolling.bottomY b ==
   Scrolling.getScrollingAreaTopBoundary b
   + Scrolling.getScrollingAreaHeight b)%Q ->
  (0 < Scrolling.getContentHeight b)%Q ->
  Scrolling.flatBoxChildren b <> [] ->
  let b' := fst (snd (Scrolling.updateScrolling false fv b)) in
  (ScrollingLifecycle.scrollAnimationTick b' <= 0)%Q /\
  ((Scrolling.getScrollingAreaHeight b <= Scrolling.getContentHeight b)%Q ->
   (Scrolling.getScrollingAreaHeight b - Scrolling.getContentHeight b
    <= ScrollingLifecycle.scrollAnimationTick b')%Q) /\
  ((Scrolling.getContentHeight b <= Scrolling.getScrollingAreaHeight b)%Q ->
   (ScrollingLifecycle.scrollAnimationTick b' == 0)%Q).
Proof.
  intros Hbaked Hpos Hne b'.
  destruct (newScrollOf_times_contentHeight b fv Hbaked Hpos)
    as (Hlo & Hhi & Hfit).
  destruct (updateScrolling_applies false fv b Hne)
    as (b'' & anim & Hup & Ha).
  pose proof (updateScrolling_keeps_children false fv b) as Hkeep.
  subst b'. rewrite Hup in *. simpl in *.
  destruct anim as [a|]; [destruct Ha; discriminate|].
  unfold ScrollingLifecycle.scrollAnimationTick, Scrolling.getContentHeight.
  rewrite Hkeep, Ha. fold (Scrolling.getContentHeight b).
  split; [lra|]. split.
  - intros Hac. specialize (Hhi Hac). lra.
  - intros Hca. rewrite (Hfit Hca). reflexivity.
Qed.

Lemma scrollAnimationTick_position_range_witness :
  let c1 := Scrolling.mkChildLayout 0 300 None None in
  let c2 := Scrolling.mkChildLayout 300 300 None None in
  let b := Scrolling.prebakeScrolling
             (Scrolling.mkScrollingBox [c1; c2] 0 400 None None false 0 0 0) in
  let fv := Scrolling.mkFocusedView 300 300 in
  (ScrollingLifecycle.scrollAnimationTick
     (fst (snd (Scrolling.updateScrolling false fv b))) <= 0)%Q.
Proof.
  intros c1 c2 b fv.
  refine (proj1 (scrollAnimationTick_position_range b fv _ _ _));
    [reflexivity | reflexivity | discriminate].
Defined.

(** ** Drawing *)

Section FrameMore.
Import Frame ViewState.

Lemma Qleb_Qgtb (q : Q) : Qleb q 0 = negb (Qgtb q 0).
Proof.
  unfold Qleb, Qgtb. destruct (Qltb 0 q) eqn:Hlt; simpl.
  - apply Qltb_lt in Hlt. apply not_true_iff_false.
    rewrite Qle_bool_iff. lra.
  - apply Qltb_ge in Hlt. by apply Qle_bool_iff.
Qed.

(** The calls of [drawBorder], spelled out. *)
Lemma borderCalls_explicit (v : View) :
  borderCalls v =
  if Qgtb (borderTop v) 0 || Qgtb (borderRight v) 0
     || Qgtb (borderBottom v) 0 || Qgtb (borderLeft v) 0
  then
    [nvgBeginPath; nvgFillColor (a v (borderColor v))]
    ++ (if Qgtb (borderTop v) 0
        then [nvgRect (getX v) (getY v) (getWidth v) (borderTop v)] else [])
    ++ (if Qgtb (borderRight v) 0
        then [nvgRect (getX v + getWidth v) (getY v) (borderRight v)
                (getHeight v)] else [])
    ++ (if Qgtb (borderBottom v) 0
        then [nvgRect (getX v) (getY v + getHeight v - borderBottom v)
                (getWidth v) (borderBottom v)] else [])
    ++ (if Qgtb (borderLeft v) 0
        then [nvgRect (getX v - borderLeft v) (getY v) (borderLeft v)
                (getHeight v)] else [])
    ++ [nvgFill]
  else [].
Proof.
  unfold borderCalls, drawBorder. rewrite !Qleb_Qgtb.
  unfold seq, when, call, skip.
  destruct (Qgtb (borderTop v) 0), (Qgtb (borderRight v) 0),
    (Qgtb (borderBottom v) 0), (Qgtb (borderLeft v) 0); reflexivity.
Qed.

(** [frame] appends to the calls made so far and leaves the theme of the
    context as it found it; the calls are spelled out. *)
Lemma frame_explicit (v : View) (ctx : FrameContext) :
  frame v ctx =
  mkFrameContext (theme ctx)
    (vg ctx ++
     if bool_decide (visibility v <> VISIBLE) then []
     else
       let t := default (theme ctx) (themeOverride v) in
       [nvgSave]
       ++ (if Qgtb (alpha v) 0 && Qneqb (collapseState v) 0
           then
             [drawBackground t]
             ++ (if Qgtb (highlightAlpha v) 0
                    && isHighlightBackgroundEnabled v
                 then [drawHighlight t (highlightAlpha v) true] else [])
             ++ (if Qltb (collapseState v) 1
                 then [nvgSave;
                       nvgIntersectScissor (getX v) (getY v) (getWidth v)
                         (getHeight v * collapseState v)]
                 else [])
             ++ [draw (getX v) (getY v) (getWidth v) (getHeight v) t]
             ++ (if Qgtb (highlightAlpha v) 0
                 then [drawHighlight t (highlightAlpha v) false] else [])
             ++ borderCalls v
             ++ (if Qltb (collapseState v) 1 then [nvgRestore] else [])
           else [])
       ++ [nvgRestore]).
Proof.
  unfold frame. destruct (bool_decide (visibility v <> VISIBLE)).
  - destruct ctx. simpl. by rewrite app_nil_r.
  - unfold borderCalls.
    unfold seq, when, call_with_theme, call, set_theme, skip.
    destruct (Qgtb (alpha v) 0 && Qneqb (collapseState v) 0).
    + destruct (themeOverride v) as [t'|];
        destruct (Qgtb (highlightAlpha v) 0),
          (isHighlightBackgroundEnabled v),
          (Qltb (collapseState v) 1);
        cbn [andb theme vg default];
        rewrite drawBorder_appends;
        cbn [theme vg]; f_equal;
        rewrite <- ?app_assoc; reflexivity.
    + destruct (themeOverride v); simpl; f_equal;
        by rewrite <- ?app_assoc.
Qed.

Lemma frameCalls_explicit (v : View) (t0 : Theme) :
  frameCalls v t0 =
  if bool_decide (visibility v <> VISIBLE) then []
  else
    let t := default t0 (themeOverride v) in
    [nvgSave]
    ++ (if Qgtb (alpha v) 0 && Qneqb (collapseState v) 0
        then
          [drawBackground t]
          ++ (if Qgtb (highlightAlpha v) 0
                 && isHighlightBackgroundEnabled v
              then [drawHighlight t (highlightAlpha v) true] else [])
          ++ (if Qltb (collapseState v) 1
              then [nvgSave;
                    nvgIntersectScissor (getX v) (getY v) (getWidth v)
                      (getHeight v * collapseState v)]
              else [])
          ++ [draw (getX v) (getY v) (getWidth v) (getHeight v) t]
          ++ (if Qgtb (highlightAlpha v) 0
              then [drawHighlight t (highlightAlpha v) false] else [])
          ++ borderCalls v
          ++ (if Qltb (collapseState v) 1 then [nvgRestore] else [])
        else [])
    ++ [nvgRestore].
Proof. unfold frameCalls. rewrite frame_explicit. reflexivity. Qed.

Lemma frame_appends (v : View) (ctx : FrameContext) :
  frame v ctx = mkFrameContext (theme ctx) (vg ctx ++ frameCalls v (theme ctx)).
Proof. rewrite frameCalls_explicit. apply frame_explicit. Qed.

Lemma count_app (p : DrawCall -> bool) (l1 l2 : list DrawCall) :
  count p (l1 ++ l2) = (count p l1 + count p l2)%nat.
Proof. unfold count. by rewrite filter_app, length_app. Qed.

(** The calls of [drawBorder]: no save, restore or draw hook among them,
    and one rectangle for each edge with a positive thickness. *)
Lemma borderCalls_counts (v : View) :
  count is_save (borderCalls v) = 0%nat /\
  count is_restore (borderCalls v) = 0%nat /\
  count is_draw (borderCalls v) = 0%nat /\
  count is_rect (borderCalls v)
  = ((if Qgtb (borderTop v) 0 then 1 else 0)
     + (if Qgtb (borderRight v) 0 then 1 else 0)
     + (if Qgtb (borderBottom v) 0 then 1 else 0)
     + (if Qgtb (borderLeft v) 0 then 1 else 0))%nat.
Proof.
  rewrite borderCalls_explicit.
  destruct (Qgtb (borderTop v) 0), (Qgtb (borderRight v) 0),
    (Qgtb (borderBottom v) 0), (Qgtb (borderLeft v) 0);
    repeat split; reflexivity.
Qed.
End FrameMore.

Section FrameNesting.
Import Frame ViewState.

Lemma well_nested_skip (depth : nat) (l rest : list DrawCall) :
  count is_save l = 0%nat -> count is_restore l = 0%nat ->
  well_nested depth (l ++ rest) = well_nested depth rest.
Proof.
  induction l as [|c l IH]; intros Hs Hr; [reflexivity|].
  destruct c; try discriminate; simpl; apply IH;
    (exact Hs || exact Hr).
Qed.
End FrameNesting.

(** X10.  For every view, visible or not, [frame] only adds calls to
    those already made and hands the frame context back with the theme it
    had; among the calls it adds, saves and restores of the graphics
    state are properly nested and every save is restored. *)
Theorem frame_restores_state
    (v : Frame.View) (ctx : Frame.FrameContext) :
  Frame.theme (Frame.frame v ctx) = Frame.theme ctx /\
  Frame.vg (Frame.frame v ctx)
  = Frame.vg ctx ++ ViewState.frameCalls v (Frame.theme ctx) /\
  ViewState.well_nested 0 (ViewState.frameCalls v (Frame.theme ctx)) = true /\
  ViewState.count ViewState.is_save
    (ViewState.frameCalls v (Frame.theme ctx))
  = ViewState.count ViewState.is_restore
      (ViewState.frameCalls v (Frame.theme ctx)).
Proof.
  rewrite frame_appends. cbn [Frame.theme Frame.vg].
  split; [reflexivity|]. split; [reflexivity|].
  rewrite frameCalls_explicit.
  destruct (borderCalls_counts v) as (Hs & Hr & _).
  destruct (bool_decide (Frame.visibility v <> Frame.VISIBLE));
    [split; reflexivity|].
  cbv zeta.
  destruct (Qgtb (Frame.alpha v) 0 && Qneqb (Frame.collapseState v) 0);
    [|split; reflexivity].
  destruct (Qgtb (Frame.highlightAlpha v) 0
            && Frame.isHighlightBackgroundEnabled v),
    (Qltb (Frame.collapseState v) 1),
    (Qgtb (Frame.highlightAlpha v) 0);
    (split;
     [ cbn [app ViewState.well_nested];
       rewrite <- ?app_assoc;
       rewrite (well_nested_skip _ (Frame.borderCalls v)) by assumption;
       reflexivity
     | rewrite !count_app, Hs, Hr; reflexivity ]).
Qed.

(** X11.  [frame] calls the draw hook of the view exactly once when the
    view is VISIBLE, its alpha is positive and its collapse state is not
    0, and not at all otherwise; the hook gets the geometry of the view
    and the overriding theme of the view, if it has one. *)
Theorem frame_draw_hook (v : Frame.View) (t0 : Frame.Theme) :
  ViewState.count ViewState.is_draw (ViewState.frameCalls v t0)
  = (if bool_decide (Frame.visibility v = Frame.VISIBLE)
        && Qgtb (Frame.alpha v) 0 && Qneqb (Frame.collapseState v) 0
     then 1 else 0)%nat /\
  (forall c : Frame.DrawCall,
     c ∈ ViewState.frameCalls v t0 -> ViewState.is_draw c = true ->
     c = Frame.draw (Frame.getX v) (Frame.getY v) (Frame.getWidth v)
           (Frame.getHeight v) (default t0 (Frame.themeOverride v))).
Proof.
  rewrite frameCalls_explicit.
  destruct (borderCalls_counts v) as (_ & _ & Hd & _).
  assert (Hborder : forall c, c ∈ Frame.borderCalls v ->
                              ViewState.is_draw c = true -> False).
  { intros c Hin Hc. unfold ViewState.count in Hd.
    assert (Hf : c ∈ filter (fun c => ViewState.is_draw c = true)
                       (Frame.borderCalls v))
      by (apply list_elem_of_filter; auto).
    destruct (filter _ (Frame.borderCalls v)); [|discriminate].
    by apply elem_of_nil in Hf. }
  destruct (decide (Frame.visibility v = Frame.VISIBLE)) as [Hvis|Hvis].
  - rewrite (bool_decide_eq_true_2 _ Hvis).
    rewrite bool_decide_eq_false_2 by (rewrite Hvis; auto).
    cbv zeta. cbn [andb].
    destruct (Qgtb (Frame.alpha v) 0 && Qneqb (Frame.collapseState v) 0).
    + split.
      * rewrite !count_app, Hd.
        destruct (Qgtb (Frame.highlightAlpha v) 0
                  && Frame.isHighlightBackgroundEnabled v),
          (Qltb (Frame.collapseState v) 1),
          (Qgtb (Frame.highlightAlpha v) 0); reflexivity.
      * intros c Hin Hc.
        repeat (apply elem_of_app in Hin as [Hin|Hin]);
          try (destruct (_ && _); [|by apply elem_of_nil in Hin]);
          try (destruct (Qltb _ _); [|by apply elem_of_nil in Hin]);
          try (destruct (Qgtb _ _); [|by apply elem_of_nil in Hin]);
          try (exfalso; by eapply Hborder);
          repeat (apply elem_of_cons in Hin as [->|Hin]);
          try discriminate; try reflexivity;
          by apply elem_of_nil in Hin.
    + split; [reflexivity|]. intros c Hin Hc.
      repeat (apply elem_of_cons in Hin as [->|Hin]); try discriminate.
      by apply elem_of_nil in Hin.
  - rewrite (bool_decide_eq_false_2 _ Hvis).
    rewrite bool_decide_eq_true_2 by exact Hvis.
    split; [reflexivity|]. intros c Hin. by apply elem_of_nil in Hin.
Qed.

(** X12.  [drawBorder] draws nothing when no edge has a positive
    thickness (a negative thickness counts as none).  Otherwise it begins
    a path, sets the border colour with the alpha of the view applied,
    adds one rectangle for each edge with a positive thickness and fills
    the path. *)
Theorem drawBorder_rectangles (v : Frame.View) :
  (Frame.borderCalls v = [] <->
   (Frame.borderTop v <= 0)%Q /\ (Frame.borderRight v <= 0)%Q /\
   (Frame.borderBottom v <= 0)%Q /\ (Frame.borderLeft v <= 0)%Q) /\
  ViewState.count ViewState.is_rect (Frame.borderCalls v)
  = ((if Qgtb (Frame.borderTop v) 0 then 1 else 0)
     + (if Qgtb (Frame.borderRight v) 0 then 1 else 0)
     + (if Qgtb (Frame.borderBottom v) 0 then 1 else 0)
     + (if Qgtb (Frame.borderLeft v) 0 then 1 else 0))%nat /\
  (Frame.borderCalls v <> [] ->
   head (Frame.borderCalls v) = Some Frame.nvgBeginPath /\
   Frame.borderCalls v !! 1%nat
   = Some (Frame.nvgFillColor (Frame.a v (Frame.borderColor v))) /\
   last (Frame.borderCalls v) = Some Frame.nvgFill /\
   length (Frame.borderCalls v)
   = (3 + ViewState.count ViewState.is_rect (Frame.borderCalls v))%nat).
Proof.
  destruct (borderCalls_counts v) as (_ & _ & _ & Hrect).
  split; [|split; [exact Hrect|]].
  - rewrite borderCalls_explicit, <- !Qgtb_false_le.
    destruct (Qgtb (Frame.borderTop v) 0), (Qgtb (Frame.borderRight v) 0),
      (Qgtb (Frame.borderBottom v) 0), (Qgtb (Frame.borderLeft v) 0);
      simpl; split; try discriminate; try tauto;
      intros (? & ? & ? & ?); discriminate.
  - rewrite borderCalls_explicit.
    destruct (Qgtb (Frame.borderTop v) 0), (Qgtb (Frame.borderRight v) 0),
      (Qgtb (Frame.borderBottom v) 0), (Qgtb (Frame.borderLeft v) 0);
      simpl; intros Hne; try (exfalso; by apply Hne);
      repeat split; reflexivity.
Qed.

Lemma drawBorder_rectangles_witness :
  let v := Frame.mkView Frame.VISIBLE None 1 1 1 0 true
             10 20 300 80 (nvgRGB 255 0 0) 1 0 (- (2)) 3 in
  head (Frame.borderCalls v) = Some Frame.nvgBeginPath /\
  Frame.borderCalls v !! 1%nat
  = Some (Frame.nvgFillColor (Frame.a v (Frame.borderColor v))) /\
  last (Frame.borderCalls v) = Some Frame.nvgFill /\
  length (Frame.borderCalls v)
  = (3 + ViewState.count ViewState.is_rect (Frame.borderCalls v))%nat.
Proof.
  intros v. apply (proj2 (proj2 (drawBorder_rectangles v))). discriminate.
Defined.

(** X13.  A view that was made INVISIBLE or GONE gets no call at all
    from [frame].  A view that was collapsed or hidden without animation,
    or whose alpha was set to 0, gets no draw hook call.  Hiding and
    showing without animation do not bring the old alpha back: [show]
    sets the alpha to 1, and after it a VISIBLE view that is not fully
    collapsed gets its draw hook call again. *)
Theorem hidden_views_are_not_drawn
    (f : ViewState.Fading) (t0 : Frame.Theme) :
  let v := ViewState.view f in
  ViewState.frameCalls (ViewState.setVisibility Frame.INVISIBLE v) t0 = [] /\
  ViewState.frameCalls (ViewState.setVisibility Frame.GONE v) t0 = [] /\
  ViewState.count ViewState.is_draw
    (ViewState.frameCalls (fst (ViewState.collapse false v)) t0) = 0%nat /\
  ViewState.count ViewState.is_draw
    (ViewState.frameCalls (ViewState.setAlpha 0 v) t0) = 0%nat /\
  ViewState.count ViewState.is_draw
    (ViewState.frameCalls
       (ViewState.view (fst (ViewState.hide false f))) t0) = 0%nat /\
  ViewState.isHidden (fst (ViewState.hide false f)) = true /\
  (let shown := fst (ViewState.show false (fst (ViewState.hide false f))) in
   ViewState.isHidden shown = false /\
   Frame.alpha (ViewState.view shown) = 1%Q /\
   (Frame.visibility v = Frame.VISIBLE ->
    ~ (Frame.collapseState v == 0)%Q ->
    ViewState.count ViewState.is_draw
      (ViewState.frameCalls (ViewState.view shown) t0) = 1%nat)).
Proof.
  intros v.
  split; [by rewrite frameCalls_explicit|].
  split; [by rewrite frameCalls_explicit|].
  assert (Hcount : forall w : Frame.View,
             ViewState.count ViewState.is_draw (ViewState.frameCalls w t0)
             = (if bool_decide (Frame.visibility w = Frame.VISIBLE)
                   && Qgtb (Frame.alpha w) 0
                   && Qneqb (Frame.collapseState w) 0
                then 1 else 0)%nat).
  { intros w. rewrite frameCalls_explicit.
    destruct (borderCalls_counts w) as (_ & _ & Hd & _).
    destruct (decide (Frame.visibility w = Frame.VISIBLE)) as [Hvis|Hvis].
    - rewrite (bool_decide_eq_true_2 _ Hvis).
      rewrite bool_decide_eq_false_2 by (rewrite Hvis; auto).
      cbv zeta. cbn [andb].
      destruct (Qgtb (Frame.alpha w) 0 && Qneqb (Frame.collapseState w) 0);
        [|reflexivity].
      rewrite !count_app, Hd.
      destruct (Qgtb (Frame.highlightAlpha w) 0
                && Frame.isHighlightBackgroundEnabled w),
        (Qltb (Frame.collapseState w) 1),
        (Qgtb (Frame.highlightAlpha w) 0); reflexivity.
    - rewrite (bool_decide_eq_false_2 _ Hvis).
      by rewrite bool_decide_eq_true_2. }
  split; [rewrite Hcount; simpl; by rewrite andb_false_r|].
  split; [rewrite Hcount; simpl; by rewrite andb_false_r|].
  split; [rewrite Hcount; simpl; by rewrite andb_false_r|].
  split; [reflexivity|].
  cbv zeta. split; [reflexivity|]. split; [reflexivity|].
  intros Hvis Hcol. rewrite Hcount. simpl.
  rewrite (bool_decide_eq_true_2 _ Hvis).
  fold v.
  replace (Qneqb (Frame.collapseState v) 0) with true
    by (symmetry; by apply Qneqb_true).
  reflexivity.
Qed.

Lemma hidden_views_are_not_drawn_witness :
  let f := ViewState.mkFading
             (Frame.mkView Frame.VISIBLE None (1 # 3) 1 1 0 true
                10 20 300 80 (nvgRGB 255 0 0) 0 0 0 0)
             false false false in
  ViewState.count ViewState.is_draw
    (ViewState.frameCalls
       (ViewState.view
          (fst (ViewState.show false (fst (ViewState.hide false f)))))
       3%nat) = 1%nat.
Proof.
  intros f.
  destruct (hidden_views_are_not_drawn f 3%nat)
    as (_ & _ & _ & _ & _ & _ & _ & _ & Hshown).
  apply Hshown.
  - reflexivity.
  - intros H. discriminate H.
Defined.

(** ** Ancestors *)

Section AncestorFacts.
Import Ancestors.

Lemma getAlpha_unfold (alpha : Q) (ancestors : list Q) :
  getAlpha alpha ancestors
  = (alpha * match ancestors with
             | [] => 1
             | parent :: above => getAlpha parent above
             end)%Q.
Proof. destruct ancestors; reflexivity. Qed.

Lemma getAlpha_range (alpha : Q) (ancestors : list Q) :
  (0 <= alpha <= 1)%Q ->
  Forall (fun p => (0 <= p <= 1)%Q) ancestors ->
  (0 <= getAlpha alpha ancestors <= alpha)%Q.
Proof.
  revert alpha. induction ancestors as [|p above IH]; intros alpha Ha Hall.
  - simpl. lra.
  - rewrite getAlpha_unfold. inversion Hall as [|? ? Hp Habove]; subst.
    specialize (IH p Hp Habove). nra.
Qed.

Lemma getAlpha_zero (alpha : Q) (ancestors : list Q) :
  (alpha == 0)%Q \/ Exists (fun p => (p == 0)%Q) ancestors ->
  (getAlpha alpha ancestors == 0)%Q.
Proof.
  revert alpha. induction ancestors as [|p above IH]; intros alpha Hz.
  - destruct Hz as [Hz|Hz]; [simpl; rewrite Hz; ring|inversion Hz].
  - rewrite getAlpha_unfold. destruct Hz as [Hz|Hz]; [rewrite Hz; ring|].
    rewrite IH; [ring|]. inversion Hz; subst; auto.
Qed.

Lemma getPosition_shift (layoutPosition : Q) (below above : list Q)
    (moved d : Q) :
  (getPosition layoutPosition (below ++ (moved + d)%Q :: above)
   == getPosition layoutPosition (below ++ moved :: above) + d)%Q.
Proof.
  revert layoutPosition.
  induction below as [|p below IH]; intros layoutPosition.
  - simpl. destruct above as [|g above]; simpl; ring.
  - simpl. rewrite IH. ring.
Qed.
End AncestorFacts.

(** X14.  The alpha a view is drawn with is its own alpha times the
    alphas of all its ancestors: with every alpha of the chain between 0
    and 1 it lies between 0 and the view's own alpha, and it is 0 as soon
    as the view or one of its ancestors has alpha 0. *)
Theorem getAlpha_chain (alpha : Q) (ancestors : list Q) :
  (Ancestors.getAlpha alpha ancestors
   == alpha * foldr Qmult 1 ancestors)%Q /\
  ((0 <= alpha <= 1)%Q ->
   Forall (fun p => (0 <= p <= 1)%Q) ancestors ->
   (0 <= Ancestors.getAlpha alpha ancestors <= alpha)%Q) /\
  ((alpha == 0)%Q \/ Exists (fun p => (p == 0)%Q) ancestors ->
   (Ancestors.getAlpha alpha ancestors == 0)%Q).
Proof.
  split; [|split].
  - revert alpha. induction ancestors as [|p above IH]; intros alpha.
    + simpl. ring.
    + rewrite getAlpha_unfold, IH. simpl. ring.
  - apply getAlpha_range.
  - apply getAlpha_zero.
Qed.

Lemma getAlpha_chain_witness :
  (0 <= Ancestors.getAlpha 1 [(4 # 5); (1 # 2)] <= 1)%Q.
Proof.
  apply (proj1 (proj2 (getAlpha_chain 1 [(4 # 5); (1 # 2)]))).
  - split; discriminate.
  - repeat constructor; discriminate.
Defined.

(** X15.  The absolute position of a view is the sum of the positions the
    layout engine gave the view and each of its ancestors, so moving the
    view or any one ancestor by [d] moves the view by exactly [d]: this is
    how changing the top of the flat box scrolls every child. *)
Theorem getPosition_sum (layoutPosition : Q) (ancestors : list Q) :
  (Ancestors.getPosition layoutPosition ancestors
   == layoutPosition + sumQ ancestors)%Q /\
  (forall d : Q,
     (Ancestors.getPosition (layoutPosition + d) ancestors
      == Ancestors.getPosition layoutPosition ancestors + d)%Q) /\
  (forall (below above : list Q) (moved d : Q),
     ancestors = below ++ moved :: above ->
     (Ancestors.getPosition layoutPosition (below ++ (moved + d)%Q :: above)
      == Ancestors.getPosition layoutPosition ancestors + d)%Q).
Proof.
  assert (Hsum : forall l p,
             (Ancestors.getPosition p l == p + sumQ l)%Q).
  { induction l as [|q l IH]; intros p; simpl.
    - unfold sumQ. simpl. ring.
    - rewrite IH. unfold sumQ. simpl. ring. }
  split; [apply Hsum|]. split.
  - intros d. rewrite !Hsum. ring.
  - intros below above moved d ->. apply getPosition_shift.
Qed.

(** ** XML attributes: suffix test, registration, errors *)

Section EndsWithFacts.
Import Xml.

Lemma substring_0_full (s : string) :
  String.substring 0 (String.length s) s = s.
Proof. induction s as [|c s IH]; simpl; [reflexivity|by rewrite IH]. Qed.

Lemma substring_length_le (m k : nat) (s : string) :
  (String.length (String.substring m k s) <= String.length s - m)%nat.
Proof.
  revert m k. induction s as [|c s IH]; intros m k.
  - destruct m, k; simpl; lia.
  - destruct m as [|m].
    + destruct k as [|k]; simpl; [lia|]. specialize (IH O k). lia.
    + simpl. apply IH.
Qed.

(** A match that [String.index] reports lies within the string. *)
Lemma index_Some_fits (n m : nat) (s1 s2 : string) :
  String.index n s1 s2 = Some m ->
  (m + String.length s1 <= String.length s2)%nat \/ s1 = ""%string.
Proof.
  intros H. apply String.index_correct1 in H.
  destruct s1 as [|c s1]; [by right|left].
  pose proof (substring_length_le m (String.length (String c s1)) s2) as Hle.
  rewrite H in Hle.
  destruct (decide (m < String.length s2)%nat) as [Hlt|Hge]; [lia|].
  exfalso. clear Hle. revert m H Hge.
  induction s2 as [|b s2 IH]; intros m H Hge.
  - destruct m; simpl in H; discriminate.
  - destruct m as [|m]; [simpl in Hge; lia|]. simpl in H.
    apply (IH m H). simpl in Hge. lia.
Qed.

Lemma string_app_length (s1 s2 : string) :
  String.length (s1 ++ s2) = (String.length s1 + String.length s2)%nat.
Proof. induction s1 as [|c s1 IH]; simpl; [reflexivity|by rewrite IH]. Qed.

(** Searching from the place where a suffix would have to start finds
    something exactly when the suffix is there. *)
Lemma index_suffix_position (data suffix : string) :
  (String.length suffix <= String.length data)%nat ->
  (String.index (String.length data - String.length suffix) suffix data
   <> None
   <-> exists pre : string, data = (pre ++ suffix)%string).
Proof.
  induction data as [|b data IH]; intros Hlen.
  - destruct suffix; [|simpl in Hlen; lia]. simpl. split; [|done].
    intros _. by exists ""%string.
  - destruct (decide (String.length suffix = String.length (String b data)))
      as [Heq|Hne].
    + rewrite Heq, Nat.sub_diag.
      cbn [String.index].
      destruct (String.prefix suffix (String b data)) eqn:Hp.
      * split; [|done]. intros _. exists ""%string. simpl.
        apply String.prefix_correct in Hp. rewrite Heq in Hp.
        by rewrite substring_0_full in Hp.
      * split.
        -- destruct (String.index 0 suffix data) as [m|] eqn:Hi; [|done].
           intros _. exfalso. apply index_Some_fits in Hi as [Hi| ->].
           ++ simpl in Heq. lia.
           ++ simpl in Heq. lia.
        -- intros [pre Hpre]. exfalso.
           assert (pre = ""%string) as ->.
           { apply (f_equal String.length) in Hpre.
             rewrite string_app_length in Hpre.
             destruct pre; [done|]. simpl in *. lia. }
           change (String b data = suffix) in Hpre. subst suffix.
           assert (String.prefix (String b data) (String b data) = true).
           { apply String.prefix_correct. apply substring_0_full. }
           congruence.
    + simpl in Hlen, Hne.
      replace (String.length (String b data) - String.length suffix)%nat
        with (S (String.length data - String.length suffix)) by (simpl; lia).
      cbn [String.index].
      specialize (IH ltac:(lia)).
      destruct (String.index _ suffix data) as [m|] eqn:Hi.
      * split; [|done]. intros _.
        destruct (proj1 IH ltac:(done)) as [pre ->].
        by exists (String b pre).
      * split; [done|]. intros [pre Hpre]. exfalso.
        destruct pre as [|c pre].
        -- change (String b data = suffix) in Hpre. subst suffix.
           simpl in Hne. lia.
        -- change (String b data = String c (pre ++ suffix)%string) in Hpre.
           injection Hpre as -> ->.
           apply (proj2 IH); eauto.
Qed.

(** X16.  [endsWith data suffix] is true exactly when [data] is some
    string followed by [suffix] (both strings being shorter than 2^64
    characters).  This includes a suffix longer than the data, where the
    start position [data.size() - suffix.size()] wraps around to a value
    beyond the end of the data and [find] reports no match. *)
Theorem endsWith_suffix (data suffix : string) :
  Z.of_nat (String.length data) <= SIZE_MAX ->
  Z.of_nat (String.length suffix) <= SIZE_MAX ->
  endsWith data suffix = true <->
  exists pre : string, data = (pre ++ suffix)%string.
Proof.
  intros Hd Hs. unfold endsWith, string_find.
  destruct (decide (String.length suffix <= String.length data)%nat)
    as [Hle|Hgt].
  - rewrite size_t_wrap_small by lia.
    replace (Z.of_nat (String.length data) <? _) with false
      by (symmetry; apply Z.ltb_ge; lia).
    replace (Z.to_nat (Z.of_nat (String.length data)
                       - Z.of_nat (String.length suffix)))
      with (String.length data - String.length suffix)%nat by lia.
    rewrite <- (index_suffix_position data suffix Hle).
    destruct (String.index _ suffix data); split; congruence.
  - assert (Hwrap : size_t_wrap (Z.of_nat (String.length data)
                                 - Z.of_nat (String.length suffix))
                    = Z.of_nat (String.length data)
                      - Z.of_nat (String.length suffix) + 2 ^ 64).
    { unfold size_t_wrap, SIZE_MAX in *.
      rewrite <- (Z.mod_add _ 1) by lia. apply Z.mod_small. lia. }
    rewrite Hwrap.
    replace (Z.of_nat (String.length data) <? _) with true
      by (symmetry; apply Z.ltb_lt; unfold SIZE_MAX in *; lia).
    split; [done|]. intros [pre Hpre]. exfalso.
    apply (f_equal String.length) in Hpre.
    rewrite string_app_length in Hpre. lia.
Qed.

Lemma endsWith_suffix_witness :
  (endsWith "10px" "px" = true <->
   exists pre : string, "10px"%string = (pre ++ "px")%string)
  /\ (endsWith "x" "px" = true <->
      exists pre : string, "x"%string = (pre ++ "px")%string).
Proof.
  split.
  - apply (endsWith_suffix "10px" "px"); vm_compute; discriminate.
  - apply (endsWith_suffix "x" "px"); vm_compute; discriminate.
Defined.

End EndsWithFacts.

Section XmlMore.
Import Xml XmlErrors XmlRegistry XmlDomain.
Context {State : Type}.
Context (style : string -> option Q) (theme : string -> option NVGcolor).
Local Open Scope string_scope.
Local Open Scope Z_scope.

(** A name without any handler: no handler runs, and the only way not to
    return false is a style or theme key that does not exist. *)
Lemma applyXMLAttribute_no_handler
    (v : View State) (name value : string) (s : State) :
  hasHandler v name = false ->
  applyXMLAttribute style theme v name value s = (Normal false, s)
  \/ applyXMLAttribute style theme v name value s = (Throw logic_error, s)
     /\ (startsWith value "@style/" = true
         /\ style (substr_from 7 value) = None
         \/ startsWith value "@theme/" = true
            /\ theme (substr_from 7 value) = None).
Proof.
  unfold hasHandler. rewrite !orb_false_iff, !bool_decide_eq_false.
  rewrite <- !eq_None_not_Some.
  intros ((((Hauto & Hpct) & Hfloat) & Hstr) & Hcol).
  unfold applyXMLAttribute, dispatch.
  rewrite Hstr, Hauto, Hpct, Hfloat, Hcol.
  unfold try_catch_invalid_argument, ret, throw.
  repeat match goal with
    | |- context [match stof ?x with _ => _ end] => destruct (stof x) eqn:?
    | |- context [if ?x then _ else _] => destruct x eqn:?
    | |- context [match ?x with _ => _ end] => destruct x eqn:?
    end;
  try (left; reflexivity); right; split; try reflexivity; auto.
Qed.

Lemma hasHandler_true (v : View State) (name : string) :
  hasHandler v name = true <->
  is_Some (autoAttributes v !! name)
  \/ is_Some (percentageAttributes v !! name)
  \/ is_Some (floatAttributes v !! name)
  \/ is_Some (stringAttributes v !! name)
  \/ is_Some (colorAttributes v !! name).
Proof.
  unfold hasHandler. rewrite !orb_true_iff, !bool_decide_eq_true. tauto.
Qed.

(** Every [register] method keeps [knownAttributes] equal to the set of
    the names that have a handler. *)
Lemma register_known (v : View State) (r : Registration) :
  (forall name, name ∈ knownAttributes v <-> hasHandler v name = true) ->
  forall name,
    name ∈ knownAttributes (register v r) <->
    hasHandler (register v r) name = true.
Proof.
  intros Hv name. rewrite hasHandler_true.
  specialize (Hv name). rewrite hasHandler_true in Hv.
  destruct r as [n h|n h|n h|n h|n h]; simpl;
    rewrite elem_of_union, elem_of_singleton, Hv;
    destruct (decide (n = name)) as [->|Hne];
    rewrite ?lookup_insert_eq, ?lookup_insert_ne by done;
    (split; [intros [?|?]|intros ?]; try congruence; eauto 10; try tauto).
Qed.

Lemma registerAll_known_from (rs : list Registration) (v : View State) :
  (forall name, name ∈ knownAttributes v <-> hasHandler v name = true) ->
  forall name,
    name ∈ knownAttributes (registerAll rs v) <->
    hasHandler (registerAll rs v) name = true.
Proof.
  revert v. induction rs as [|r rs IH]; intros v Hv; [exact Hv|].
  simpl. apply IH. by apply register_known.
Qed.

Lemma noAttributes_known (name : string) :
  name ∈ knownAttributes (@noAttributes State) <->
  hasHandler (@noAttributes State) name = true.
Proof.
  rewrite hasHandler_true. simpl. rewrite !lookup_empty.
  split; [set_solver|]. intros [H|[H|[H|[H|H]]]]; by destruct H.
Qed.

(** X17.  Whatever sequence of [register...XMLAttribute] calls built a
    view, [knownAttributes] holds exactly the names that have a handler
    in one of the five maps: a registered name is always known, and a
    name is never known without a handler. *)
Theorem knownAttributes_are_the_registered_names
    (rs : list (@Registration State)) (name : string) :
  name ∈ knownAttributes (registerAll rs noAttributes) <->
  hasHandler (registerAll rs noAttributes) name = true.
Proof. apply registerAll_known_from, noAttributes_known. Qed.

(** X18.  On a view built by registrations, an attribute whose name was
    never registered stops [applyXMLAttributes] with the "Unknown XML
    attribute" error for that name and value, whatever follows it; no
    handler has run and the state is as before.  This holds for every
    value whose number, where the value reaches [std::stof], is a plain
    decimal literal or a string that [std::stof] cannot convert.  The one
    exception is a value [@style/key] or [@theme/key] whose key does not
    exist: the lookup throws its own [std::logic_error] first. *)
Theorem applyXMLAttributes_unknown_attribute
    (rs : list (@Registration State)) (name value : string)
    (rest : list (string * string)) (s : State) :
  let v := registerAll rs noAttributes in
  name ∉ knownAttributes v ->
  stof_modelled value = true ->
  applyXMLAttributes style theme v ((name, value) :: rest) s
  = (Rejected (UnknownAttribute name value), s)
  \/ applyXMLAttributes style theme v ((name, value) :: rest) s
     = (Raised logic_error, s)
     /\ (startsWith value "@style/" = true
         /\ style (substr_from 7 value) = None
         \/ startsWith value "@theme/" = true
            /\ theme (substr_from 7 value) = None).
Proof.
  intros v Hunknown _.
  assert (Hno : hasHandler v name = false).
  { apply not_true_iff_false. intros Hh. apply Hunknown.
    by apply registerAll_known_from; [apply noAttributes_known|]. }
  cbn [applyXMLAttributes].
  destruct (applyXMLAttribute_no_handler v name value s Hno)
    as [-> | [-> Hkey]].
  - left. unfold printXMLAttributeErrorMessage.
    by rewrite bool_decide_eq_false_2.
  - right. by split.
Qed.

(** X19.  For a value in pixels whose number is a plain decimal
    literal, and a name with a float handler (and no string handler), the
    result follows the handler: true when it returns; false when it
    throws [std::invalid_argument], because the handler runs inside the
    [try] block that guards [std::stof], and what the handler did to the
    state before throwing stays; any other exception leaves
    [applyXMLAttribute]. *)
Theorem applyXMLAttribute_px_handler_outcome
    (v : View State) (name value : string) (floatValue : Q)
    (handler : Q -> Effect State unit) (s : State) :
  stringAttributes v !! name = None ->
  String.eqb value "auto" = false ->
  endsWith value "px" = true ->
  plain_decimal (String.substring 0 (String.length value - 2) value) = true ->
  stof (String.substring 0 (String.length value - 2) value)
  = Some floatValue ->
  floatAttributes v !! name = Some handler ->
  applyXMLAttribute style theme v name value s
  = match handler floatValue s with
    | (Normal _, s') => (Normal true, s')
    | (Throw invalid_argument, s') => (Normal false, s')
    | (Throw logic_error, s') => (Throw logic_error, s')
    end.
Proof.
  intros Hstr Hauto Hpx _ Hstof Hfloat.
  unfold applyXMLAttribute, dispatch.
  rewrite Hstr, Hauto, Hpx, Hstof, Hfloat.
  unfold try_catch_invalid_argument, call_return_true.
  destruct (handler floatValue s) as [[r|[|]] s']; reflexivity.
Qed.

(** A string that cannot start a number has no conversion. *)
Lemma no_conversion_stof (numeral : string) :
  no_conversion numeral = true -> stof numeral = None.
Proof.
  unfold no_conversion, stof.
  destruct (take_sign (skip_spaces (list_ascii_of_string numeral)))
    as [negative l].
  destruct l as [|c l]; [reflexivity|].
  rewrite negb_true_iff, !orb_false_iff.
  intros (((((Hdigit & Hpoint) & _) & _) & _) & _).
  cbn [take_digits]. unfold digit_value.
  unfold is_digit in Hdigit. rewrite Hdigit, Hpoint. reflexivity.
Qed.

(** X20.  A value that ends with a percent sign (and not with px), for a
    name without string handler, is refused with result false and an
    unchanged state when the string in front of the sign is one that
    [std::stof] cannot convert, or is a plain decimal literal below 0 or
    of at least 101 (a literal between 100 and 101 can round to the
    [float] 100), whether or not the name has a percentage handler or any
    other handler: no handler is called and the value never falls through
    to the later branches. *)
Theorem applyXMLAttribute_percentage_rejected
    (v : View State) (name value : string) (s : State) :
  stringAttributes v !! name = None ->
  String.eqb value "auto" = false ->
  endsWith value "px" = false ->
  endsWith value "%" = true ->
  (let numeral := String.substring 0 (String.length value - 1) value in
   no_conversion numeral = true
   \/ plain_decimal numeral = true
      /\ exists floatValue : Q,
           stof numeral = Some floatValue
           /\ ((floatValue < 0)%Q \/ (101 <= floatValue)%Q)) ->
  applyXMLAttribute style theme v name value s = (Normal false, s).
Proof.
  intros Hstr Hauto Hpx Hpct Hnumeral. cbv zeta in Hnumeral.
  unfold applyXMLAttribute.
  rewrite Hstr, Hauto, Hpx, Hpct.
  unfold try_catch_invalid_argument.
  destruct Hnumeral as [Hnone | (_ & floatValue & Hstof & Hrange)].
  - by rewrite (no_conversion_stof _ Hnone).
  - rewrite Hstof.
    assert (Hout : Qltb floatValue 0 || Qgtb floatValue 100 = true).
    { apply orb_true_iff. unfold Qgtb. rewrite !Qltb_lt.
      destruct Hrange as [Hneg|Hbig]; [by left|right]. lra. }
    by rewrite Hout.
Qed.

(** X21.  [applyXMLAttributes] handles the attributes in document order
    and stops at the first one that fails: applying [first ++ rest] is
    applying [first] and, only if every attribute of [first] was
    accepted, applying [rest] in the state that [first] left; otherwise
    the outcome and the state are those at the failure and no attribute
    of [rest] is looked at. *)
Theorem applyXMLAttributes_stops_at_first_failure
    (v : View State) (first rest : list (string * string)) (s : State) :
  applyXMLAttributes style theme v (first ++ rest) s
  = match applyXMLAttributes style theme v first s with
    | (AllApplied, s') => applyXMLAttributes style theme v rest s'
    | stopped => stopped
    end.
Proof.
  revert s. induction first as [|[name value] first IH]; intros s;
    [reflexivity|].
  cbn [app applyXMLAttributes].
  destruct (applyXMLAttribute style theme v name value s)
    as [[[|]|e] s']; [apply IH|reflexivity|reflexivity].
Qed.

End XmlMore.

Lemma applyXMLAttributes_unknown_attribute_witness :
  let record : Q -> Xml.Effect (list Q) unit :=
    fun value calls => (Xml.Normal tt, calls ++ [value]) in
  let rs := [XmlRegistry.RegisterFloat "width" record] in
  let v := XmlRegistry.registerAll rs Xml.noAttributes in
  let attributes := [("height", "10px"); ("width", "10px")]%string in
  XmlErrors.applyXMLAttributes (fun _ => None) (fun _ => None) v attributes []
  = (XmlErrors.Rejected (XmlErrors.UnknownAttribute "height" "10px"), [])
  \/ XmlErrors.applyXMLAttributes (fun _ => None) (fun _ => None) v
       attributes []
     = (XmlErrors.Raised Xml.logic_error, [])
     /\ (Xml.startsWith "10px" "@style/" = true
         /\ (fun _ : string => @None Q) (Xml.substr_from 7 "10px") = None
         \/ Xml.startsWith "10px" "@theme/" = true
            /\ (fun _ : string => @None NVGcolor) (Xml.substr_from 7 "10px")
               = None).
Proof.
  intros record rs v attributes.
  apply (applyXMLAttributes_unknown_attribute
           (fun _ => None) (fun _ => None) rs "height" "10px"
           [("width", "10px")]%string []).
  - simpl. rewrite elem_of_union, elem_of_singleton, elem_of_empty.
    intros [Hname|[]]. discriminate Hname.
  - reflexivity.
Defined.

Lemma applyXMLAttribute_px_handler_outcome_witness :
  let refuse : Q -> Xml.Effect nat unit :=
    fun value calls => (Xml.Throw Xml.invalid_argument, S calls) in
  let v := Xml.registerFloatXMLAttribute "width" refuse Xml.noAttributes in
  Xml.applyXMLAttribute (fun _ => None) (fun _ => None) v "width" "10px" O
  = (Xml.Normal false, 1%nat).
Proof.
  intros refuse v.
  apply (applyXMLAttribute_px_handler_outcome
           (fun _ => None) (fun _ => None) v "width" "10px" 10%Q refuse O);
    reflexivity.
Defined.

Lemma applyXMLAttribute_percentage_rejected_witness :
  let record : Q -> Xml.Effect (list Q) unit :=
    fun value calls => (Xml.Normal tt, calls ++ [value]) in
  let v := Xml.registerPercentageXMLAttribute "width" record
             Xml.noAttributes in
  Xml.applyXMLAttribute (fun _ => None) (fun _ => None) v "width" "150%" []
  = (Xml.Normal false, [])
  /\ Xml.applyXMLAttribute (fun _ => None) (fun _ => None) v "width" "abc%" []
     = (Xml.Normal false, []).
Proof.
  intros record v. split.
  - apply (applyXMLAttribute_percentage_rejected
             (fun _ => None) (fun _ => None) v "width" "150%" []);
      try reflexivity.
    right. split; [reflexivity|]. exists 150%Q.
    split; [reflexivity|]. right. discriminate.
  - apply (applyXMLAttribute_percentage_rejected
             (fun _ => None) (fun _ => None) v "width" "abc%" []);
      try reflexivity.
    left. reflexivity.
Defined.

(** ** The legacy [BoxLayout]: gravity and default focus *)

Section LegacyMore.
Import Legacy LegacyFocus.

Lemma uint32_wrap_int32_wrap_add (a w : Z) :
  uint32_wrap (int32_wrap a + w) = uint32_wrap (a + w).
Proof.
  unfold uint32_wrap, int32_wrap.
  replace ((a + 2 ^ 31) mod 2 ^ 32 - 2 ^ 31 + w)
    with ((a + 2 ^ 31) mod 2 ^ 32 + (w - 2 ^ 31)) by ring.
  rewrite Zplus_mod_idemp_l. f_equal. ring.
Qed.

(** Shifting a view moves its right edge by the same amount, in
    [unsigned] arithmetic. *)
Lemma rightEdge_shiftRight (difference : Z) (v : View) :
  rightEdge (shiftRight difference v)
  = uint32_wrap (rightEdge v + difference).
Proof.
  unfold rightEdge, shiftRight, notify, setBoundaries, getX, getWidth. simpl.
  rewrite uint32_wrap_int32_wrap_add.
  unfold uint32_wrap.
  rewrite !Zplus_mod_idemp_l. f_equal. ring.
Qed.

Lemma last_map_on_view (f : View -> View) (cs : list BoxLayoutChild) :
  last (map (on_view f) cs) = option_map (on_view f) (last cs).
Proof.
  induction cs as [|c cs IH]; [reflexivity|].
  destruct cs as [|c' cs]; [reflexivity|].
  change (last (on_view f c :: map (on_view f) (c' :: cs)))
    with (last (map (on_view f) (c' :: cs))).
  exact IH.
Qed.

(** X22.  After the gravity pass of a horizontal layout with RIGHT
    gravity whose last child does not reach beyond the right edge of the
    layout, the right edge of the last child is the right edge of the
    layout (both as the [unsigned] sums the code computes), and the
    geometry of the layout itself is unchanged. *)
Theorem BoxLayout_gravity_right_flush
    (b : BoxLayout) (lastChild : BoxLayoutChild) :
  orientation b = HORIZONTAL ->
  gravity b = RIGHT ->
  last (children b) = Some lastChild ->
  rightEdge (view lastChild) <= rightEdge (self b) ->
  exists moved : BoxLayoutChild,
    last (children (layoutGravity b)) = Some moved
    /\ rightEdge (view moved) = rightEdge (self (layoutGravity b))
    /\ self (layoutGravity b) = self b.
Proof.
  intros Horientation Hgravity Hlast Hguard.
  unfold layoutGravity, applyGravity.
  rewrite Horientation, Hlast, Hgravity.
  cbv zeta. apply Z.leb_le in Hguard. rewrite Hguard.
  eexists. split; [|split].
  - unfold set_children. cbn [children].
    rewrite last_map_on_view, Hlast. reflexivity.
  - unfold set_children, on_view. cbn [self view].
    rewrite rightEdge_shiftRight.
    unfold rightEdge at 1 2 3 4. unfold uint32_wrap.
    rewrite Zplus_mod_idemp_r.
    replace ((getX (view lastChild) + getWidth (view lastChild)) mod 2 ^ 32
             + ((getX (self b) + getWidth (self b)) mod 2 ^ 32
                - (getX (view lastChild) + getWidth (view lastChild))
                  mod 2 ^ 32))
      with ((getX (self b) + getWidth (self b)) mod 2 ^ 32) by ring.
    apply Z.mod_mod. lia.
  - reflexivity.
Qed.

Lemma BoxLayout_gravity_right_flush_witness :
  let child x := mkChild (mkView x 0 100 50 1 []) false in
  let b :=
    mkBoxLayout (mkView 0 0 1280 50 1 []) HORIZONTAL RIGHT
      [child 0; child 100] false 0 0 false in
  exists moved : BoxLayoutChild,
    last (children (layoutGravity b)) = Some moved
    /\ rightEdge (view moved) = rightEdge (self (layoutGravity b))
    /\ self (layoutGravity b) = self b.
Proof.
  intros child b.
  apply (BoxLayout_gravity_right_flush b (child 100));
    [reflexivity|reflexivity|reflexivity|].
  vm_compute. discriminate.
Defined.

Section LegacyDefaultFocus.
Context (childDefaultFocus : nat -> option Focus.ViewRef).

(** X23.  With focus memory switched on, once a child at a valid place
    has gained focus and accepts default focus, [getDefaultFocus] of the
    layout answers with the focus of that child; after [willDisappear]
    the answer is again the one for the originally configured index. *)
Theorem BoxLayout_remembered_focus_is_default
    (b : BoxLayout) (position : nat) (focus : Focus.ViewRef)
    (resetState : bool) :
  rememberFocus b = true ->
  (position < length (children b))%nat ->
  Z.of_nat (length (children b)) <= SIZE_MAX ->
  childDefaultFocus position = Some focus ->
  BoxLayout_getDefaultFocus childDefaultFocus (onChildFocusGained position b)
  = Some focus
  /\ BoxLayout_getDefaultFocus childDefaultFocus
       (willDisappear resetState (onChildFocusGained position b))
     = BoxLayout_getDefaultFocus childDefaultFocus
         (set_defaultFocusedIndex (originalDefaultFocus b) b).
Proof.
  intros Hremember Hposition Hsize Hfocus.
  unfold onChildFocusGained, willDisappear. cbn [rememberFocus set_childFocused
    set_children set_defaultFocusedIndex].
  rewrite Hremember. cbn [rememberFocus set_childFocused
    set_children set_defaultFocusedIndex].
  rewrite Hremember.
  rewrite size_t_wrap_small by lia.
  unfold BoxLayout_getDefaultFocus.
  cbn [defaultFocusedIndex children originalDefaultFocus set_childFocused
    set_children set_defaultFocusedIndex].
  rewrite length_map.
  split; [|reflexivity].
  replace (Z.of_nat position <? Z.of_nat (length (children b))) with true
    by (symmetry; apply Z.ltb_lt; lia).
  by rewrite Nat2Z.id, Hfocus.
Qed.

End LegacyDefaultFocus.

Lemma BoxLayout_remembered_focus_is_default_witness :
  let child := mkChild (mkView 0 0 100 50 1 []) false in
  let b :=
    mkBoxLayout (mkView 0 0 1280 50 1 []) HORIZONTAL OTHER_GRAVITY
      [child; child; child] true 0 0 false in
  let childDefaultFocus (i : nat) := Some (10 + i)%nat in
  BoxLayout_getDefaultFocus childDefaultFocus (onChildFocusGained 2 b)
  = Some 12%nat
  /\ BoxLayout_getDefaultFocus childDefaultFocus
       (willDisappear true (onChildFocusGained 2 b))
     = BoxLayout_getDefaultFocus childDefaultFocus
         (set_defaultFocusedIndex (originalDefaultFocus b) b).
Proof.
  intros child b childDefaultFocus.
  apply (BoxLayout_remembered_focus_is_default childDefaultFocus b 2 12%nat
           true).
  - reflexivity.
  - simpl. lia.
  - vm_compute. discriminate.
  - reflexivity.
Defined.

End LegacyMore.
